(** * Record output rendering (cli/output.go): a shallow embedding

    The Go file renders a slice of records of a generic type [T] either as
    indented JSON or as CSV.  The embedding follows the file function by
    function: [FieldWithTags.headers], [FieldWithTags.fields], [Write],
    [writeJson], [writCSV] and [toString].

    What the code reaches through the Go standard library is modelled next to
    it, from the library's documented behaviour:
    - [reflect]: kinds, [Value.FieldByName], [Value.Elem], [Value.Interface]
      with its read-only flag (values read out of unexported fields),
      [Type.NumField], the text a type prints under, the panics with their
      texts;
    - [strconv.FormatInt], [strconv.FormatBool], [fmt.Sprintf] with the verb
      [%.2f] on an exact binary floating-point value ([spec_float]);
    - [strings.TrimSpace] (byte for byte on UTF-8) and [strings.ToLower]
      (its ASCII path; the Unicode path is a parameter);
    - [encoding/csv]: [Writer.Write] with its quoting rule;
    - [encoding/json]: [Marshal] on the modelled values, with the names and
      the [-] of [json] struct tags, and [Indent]; what the options of a
      tag do, and what is done with a type that has a marshal method of its
      own or embedded fields, are parameters.

    Scope of the value universe: booleans, signed and unsigned integers,
    floats, strings, structs (with exported and unexported fields), pointers,
    the kinds without a payload here (complex numbers, channels, functions,
    unsafe pointers), and values of defined types over these.  Slices,
    arrays, maps and interface-typed fields are outside it.

    The destination stream is a byte buffer that accepts every write;
    [NewWriter] and [fileWriter], which open it, are not part of the
    embedding. *)

From Stdlib Require Import ZArith String Ascii List Bool Lia.
From Stdlib Require Import DecimalString DecimalPos DecimalZ SpecFloat.
Import ListNotations.

Open Scope string_scope.
Open Scope Z_scope.

(** ** Outcomes: a value, or a run-time panic *)

Inductive outcome (A : Type) : Type :=
| Ok (a : A)
| Panic (msg : string).
Arguments Ok {A} a.
Arguments Panic {A} msg.

Definition bind {A B : Type} (m : outcome A) (k : A -> outcome B) : outcome B :=
  match m with
  | Ok a => k a
  | Panic msg => Panic msg
  end.

Notation "x <- m ;; k" := (bind m (fun x => k))
  (at level 61, m at next level, right associativity).

(** ** Bytes and strings *)

Definition dquote : ascii := "034"%char.
Definition LF : ascii := "010"%char.
Definition CR : ascii := "013"%char.

Definition byte (c : ascii) : Z := Z.of_nat (nat_of_ascii c).

Definition str1 (c : ascii) : string := String c EmptyString.

Definition is_digit (c : ascii) : bool :=
  (48 <=? byte c) && (byte c <=? 57).

Fixpoint all_digits (s : string) : bool :=
  match s with
  | EmptyString => true
  | String c r => is_digit c && all_digits r
  end.

(** The pattern [\d+]. *)
Definition digits1 (s : string) : bool :=
  match s with
  | EmptyString => false
  | String _ _ => all_digits s
  end.

(** The pattern [-?\d+], matched against the whole text. *)
Definition matches_int (s : string) : bool :=
  match s with
  | String c r => if Ascii.eqb c "-" then digits1 r else digits1 s
  | EmptyString => false
  end.

(** [\d*\.\d\d] when [seen], [\d+\.\d\d] otherwise. *)
Fixpoint digits_dot_2 (seen : bool) (s : string) : bool :=
  match s with
  | EmptyString => false
  | String c r =>
      if is_digit c then digits_dot_2 true r
      else if Ascii.eqb c "." then
        seen && match r with
                | String a (String b EmptyString) => is_digit a && is_digit b
                | _ => false
                end
      else false
  end.

(** The pattern [-?\d+\.\d{2}], matched against the whole text. *)
Definition matches_fixed2 (s : string) : bool :=
  match s with
  | String c r =>
      if Ascii.eqb c "-" then digits_dot_2 false r else digits_dot_2 false s
  | EmptyString => false
  end.

(** ** reflect: kinds *)

Inductive Kind : Type :=
| Kind_Invalid | Kind_Bool
| Kind_Int | Kind_Int8 | Kind_Int16 | Kind_Int32 | Kind_Int64
| Kind_Uint | Kind_Uint8 | Kind_Uint16 | Kind_Uint32 | Kind_Uint64 | Kind_Uintptr
| Kind_Float32 | Kind_Float64 | Kind_Complex64 | Kind_Complex128
| Kind_Array | Kind_Chan | Kind_Func | Kind_Interface | Kind_Map
| Kind_Ptr | Kind_Slice | Kind_String | Kind_Struct | Kind_UnsafePointer.

Inductive IntKind : Type := I_ | I8 | I16 | I32 | I64.
Inductive UintKind : Type := U_ | U8 | U16 | U32 | U64 | Uptr.
Inductive FloatKind : Type := F32 | F64.
Inductive OtherKind : Type := OComplex64 | OComplex128 | OChan | OFunc | OUnsafePointer.

Definition Kind_of_int (k : IntKind) : Kind :=
  match k with
  | I_ => Kind_Int | I8 => Kind_Int8 | I16 => Kind_Int16
  | I32 => Kind_Int32 | I64 => Kind_Int64
  end.

Definition Kind_of_uint (k : UintKind) : Kind :=
  match k with
  | U_ => Kind_Uint | U8 => Kind_Uint8 | U16 => Kind_Uint16
  | U32 => Kind_Uint32 | U64 => Kind_Uint64 | Uptr => Kind_Uintptr
  end.

Definition Kind_of_float (k : FloatKind) : Kind :=
  match k with F32 => Kind_Float32 | F64 => Kind_Float64 end.

Definition Kind_of_other (k : OtherKind) : Kind :=
  match k with
  | OComplex64 => Kind_Complex64 | OComplex128 => Kind_Complex128
  | OChan => Kind_Chan | OFunc => Kind_Func
  | OUnsafePointer => Kind_UnsafePointer
  end.

(** ** reflect: struct fields, Go values, reflect.Value *)

(** [reflect.StructField] as the code and encoding/json read it: [Name],
    whether the field is exported ([PkgPath] empty), and what
    [Tag.Get("csv")] and [Tag.Get("json")] return. *)
Record StructField : Type := mkField {
  Name : string;
  Exported : bool;
  Tag_csv : string;
  Tag_json : string
}.

#[local] Set Warnings "-register-all".

(** Go values.  A struct value carries the name its type prints under, the
    struct type that prints as [time.Time] being the standard library's.
    [VDefined tname x] is a value of any other defined type: it prints as
    [tname] and is represented, kind and content, as [x] is (so a type of
    another package that prints as [time.Time] is a [VDefined]). *)
Inductive GoValue : Type :=
| VBool (b : bool)
| VInt (k : IntKind) (i : Z)
| VUint (k : UintKind) (u : Z)
| VFloat (k : FloatKind) (f : spec_float)
| VString (s : string)
| VStruct (tname : string) (fs : list (StructField * GoValue))
| VPtr (elem : string) (target : option GoValue)
| VOther (k : OtherKind)
| VDefined (tname : string) (x : GoValue).

(** A [reflect.Value]: the zero Value, or a Go value with the read-only flag
    that marks what was read out of an unexported field. *)
Inductive Value : Type :=
| Invalid
| Val (ro : bool) (x : GoValue).

(** The representation of a value, under the names of its defined types. *)
Fixpoint repr (x : GoValue) : GoValue :=
  match x with
  | VDefined _ y => repr y
  | _ => x
  end.

Definition GoValue_Kind (x : GoValue) : Kind :=
  match repr x with
  | VBool _ => Kind_Bool
  | VInt k _ => Kind_of_int k
  | VUint k _ => Kind_of_uint k
  | VFloat k _ => Kind_of_float k
  | VString _ => Kind_String
  | VStruct _ _ => Kind_Struct
  | VPtr _ _ => Kind_Ptr
  | VOther k => Kind_of_other k
  | VDefined _ _ => Kind_Invalid
  end.

Definition Value_Kind (v : Value) : Kind :=
  match v with
  | Invalid => Kind_Invalid
  | Val _ x => GoValue_Kind x
  end.

(** [Kind.String()]. *)
Definition Kind_name (k : Kind) : string :=
  match k with
  | Kind_Invalid => "invalid" | Kind_Bool => "bool"
  | Kind_Int => "int" | Kind_Int8 => "int8" | Kind_Int16 => "int16"
  | Kind_Int32 => "int32" | Kind_Int64 => "int64"
  | Kind_Uint => "uint" | Kind_Uint8 => "uint8" | Kind_Uint16 => "uint16"
  | Kind_Uint32 => "uint32" | Kind_Uint64 => "uint64"
  | Kind_Uintptr => "uintptr"
  | Kind_Float32 => "float32" | Kind_Float64 => "float64"
  | Kind_Complex64 => "complex64" | Kind_Complex128 => "complex128"
  | Kind_Array => "array" | Kind_Chan => "chan" | Kind_Func => "func"
  | Kind_Interface => "interface" | Kind_Map => "map" | Kind_Ptr => "ptr"
  | Kind_Slice => "slice" | Kind_String => "string" | Kind_Struct => "struct"
  | Kind_UnsafePointer => "unsafe.Pointer"
  end.

(** The panic of a [reflect.Value] method called on the wrong kind. *)
Definition ValueError (method : string) (k : Kind) : string :=
  match k with
  | Kind_Invalid => "reflect: call of " ++ method ++ " on zero Value"
  | _ => "reflect: call of " ++ method ++ " on " ++ Kind_name k ++ " Value"
  end.

(** [Type().String()] of a Go value: the name of its defined type, or the
    text of its unnamed type (for a channel or a function the text, which
    names the element types too, is cut short here: it is no type name). *)
Definition GoValue_Type_String (x : GoValue) : string :=
  match x with
  | VBool _ => "bool"
  | VInt k _ =>
      match k with
      | I_ => "int" | I8 => "int8" | I16 => "int16"
      | I32 => "int32" | I64 => "int64"
      end
  | VUint k _ =>
      match k with
      | U_ => "uint" | U8 => "uint8" | U16 => "uint16"
      | U32 => "uint32" | U64 => "uint64" | Uptr => "uintptr"
      end
  | VFloat k _ => match k with F32 => "float32" | F64 => "float64" end
  | VString _ => "string"
  | VStruct tname _ => tname
  | VPtr elem _ => "*" ++ elem
  | VOther k =>
      match k with
      | OComplex64 => "complex64" | OComplex128 => "complex128"
      | OChan => "chan" | OFunc => "func"
      | OUnsafePointer => "unsafe.Pointer"
      end
  | VDefined tname _ => tname
  end.

(** Whether the dynamic type of a value is the standard [time.Time]. *)
Definition is_std_time (x : GoValue) : bool :=
  match x with
  | VStruct tname _ => String.eqb tname "time.Time"
  | _ => false
  end.

Definition Value_Type_String (v : Value) : outcome string :=
  match v with
  | Invalid => Panic (ValueError "reflect.Value.Type" Kind_Invalid)
  | Val _ x => Ok (GoValue_Type_String x)
  end.

Definition Value_String (v : Value) : outcome string :=
  match v with
  | Invalid => Ok "<invalid Value>"
  | Val _ x =>
      match repr x with
      | VString s => Ok s
      | _ => Ok ("<" ++ GoValue_Type_String x ++ " Value>")
      end
  end.

Definition Value_Int (v : Value) : outcome Z :=
  match v with
  | Invalid => Panic (ValueError "reflect.Value.Int" Kind_Invalid)
  | Val _ x =>
      match repr x with
      | VInt _ i => Ok i
      | _ => Panic (ValueError "reflect.Value.Int" (GoValue_Kind x))
      end
  end.

Definition Value_Float (v : Value) : outcome spec_float :=
  match v with
  | Invalid => Panic (ValueError "reflect.Value.Float" Kind_Invalid)
  | Val _ x =>
      match repr x with
      | VFloat _ f => Ok f
      | _ => Panic (ValueError "reflect.Value.Float" (GoValue_Kind x))
      end
  end.

Definition Value_Bool (v : Value) : outcome bool :=
  match v with
  | Invalid => Panic (ValueError "reflect.Value.Bool" Kind_Invalid)
  | Val _ x =>
      match repr x with
      | VBool b => Ok b
      | _ => Panic (ValueError "reflect.Value.Bool" (GoValue_Kind x))
      end
  end.

(** [Value.Interface] refuses a value read out of an unexported field. *)
Definition Value_Interface (v : Value) : outcome GoValue :=
  match v with
  | Invalid => Panic (ValueError "reflect.Value.Interface" Kind_Invalid)
  | Val true _ =>
      Panic "reflect.Value.Interface: cannot return value obtained from unexported field or method"
  | Val false x => Ok x
  end.

(** The type assertion [.(time.Time)] on what [Value.Interface] returned for
    a value whose type prints as [time.Time]: it holds for the standard type
    and panics for any other. *)
Definition assert_Time (x : GoValue) : outcome GoValue :=
  if is_std_time x then Ok x
  else Panic "interface conversion: interface {} is time.Time, not time.Time (types from different packages)".

(** [Value.Elem] on a pointer: the zero Value for a nil pointer. *)
Definition Value_Elem (v : Value) : outcome Value :=
  match v with
  | Invalid => Panic (ValueError "reflect.Value.Elem" Kind_Invalid)
  | Val ro x =>
      match repr x with
      | VPtr _ (Some y) => Ok (Val ro y)
      | VPtr _ None => Ok Invalid
      | _ => Panic (ValueError "reflect.Value.Elem" (GoValue_Kind x))
      end
  end.

Fixpoint lookup_field (name : string) (fs : list (StructField * GoValue))
  : option (StructField * GoValue) :=
  match fs with
  | [] => None
  | (f, x) :: rest =>
      if String.eqb (Name f) name then Some (f, x) else lookup_field name rest
  end.

(** [Value.FieldByName]: the first direct field of that name, read-only when
    the field is unexported or the struct itself was; the zero Value when no
    direct field has the name (the search among promoted fields that follows
    such a miss is left out: [writCSV] asks for direct field names); a panic
    on anything but a struct. *)
Definition Value_FieldByName (v : Value) (name : string) : outcome Value :=
  match v with
  | Invalid => Panic (ValueError "reflect.Value.FieldByName" Kind_Invalid)
  | Val ro x =>
      match repr x with
      | VStruct _ fs =>
          if String.eqb name "" then Ok Invalid
          else match lookup_field name fs with
               | Some (f, y) => Ok (Val (ro || negb (Exported f)) y)
               | None => Ok Invalid
               end
      | _ => Panic (ValueError "reflect.Value.FieldByName" (GoValue_Kind x))
      end
  end.

(** ** strconv and fmt *)

Definition FormatInt (i : Z) : string :=
  NilZero.string_of_int (Z.to_int i).

Definition FormatBool (b : bool) : string :=
  if b then "true" else "false".

Definition digit (d : Z) : ascii := ascii_of_nat (48 + Z.to_nat d).

(** [num / den] rounded to the nearest integer, a tie going to the even one. *)
Definition round_half_even (num den : Z) : Z :=
  let q := num / den in
  let r := num mod den in
  if 2 * r <? den then q
  else if den <? 2 * r then q + 1
  else if Z.even q then q else q + 1.

(** Hundredths of [m * 2^e], rounded as the decimal conversion rounds. *)
Definition hundredths (m : positive) (e : Z) : Z :=
  if 0 <=? e then Z.pos m * 2 ^ e * 100
  else round_half_even (Z.pos m * 100) (2 ^ (- e)).

Definition fixed2 (neg : bool) (q : Z) : string :=
  (if neg then "-" else "")
  ++ NilZero.string_of_uint (N.to_uint (Z.to_N (q / 100)))
  ++ "." ++ String (digit ((q / 10) mod 10)) (str1 (digit (q mod 10))).

(** [fmt.Sprintf("%.2f", f)]. *)
Definition Sprintf_2f (f : spec_float) : string :=
  match f with
  | S754_nan => "NaN"
  | S754_infinity false => "+Inf"
  | S754_infinity true => "-Inf"
  | S754_zero neg => fixed2 neg 0
  | S754_finite neg m e => fixed2 neg (hundredths m e)
  end.

Definition is_finite_float (f : spec_float) : bool :=
  match f with
  | S754_zero _ | S754_finite _ _ _ => true
  | _ => false
  end.

(** ** strings.TrimSpace, on the bytes of a UTF-8 text *)

(** The table [asciiSpace]: tab, line feed, vertical tab, form feed,
    carriage return, space.  These are also the ASCII runes of
    [unicode.IsSpace]. *)
Definition asciiSpace (c : ascii) : bool :=
  let b := byte c in
  (b =? 9) || (b =? 10) || (b =? 11) || (b =? 12) || (b =? 13) || (b =? 32).

(** The two-byte encodings of U+0085 and U+00A0. *)
Definition is_space2 (b1 b2 : Z) : bool :=
  (b1 =? 0xC2) && ((b2 =? 0x85) || (b2 =? 0xA0)).

(** The three-byte encodings of U+1680, U+2000..U+200A, U+2028, U+2029,
    U+202F, U+205F and U+3000. *)
Definition is_space3 (b1 b2 b3 : Z) : bool :=
  ((b1 =? 0xE1) && (b2 =? 0x9A) && (b3 =? 0x80))
  || ((b1 =? 0xE2) && (b2 =? 0x80)
      && (((0x80 <=? b3) && (b3 <=? 0x8A))
          || (b3 =? 0xA8) || (b3 =? 0xA9) || (b3 =? 0xAF)))
  || ((b1 =? 0xE2) && (b2 =? 0x81) && (b3 =? 0x9F))
  || ((b1 =? 0xE3) && (b2 =? 0x80) && (b3 =? 0x80)).

(** [unicode.IsSpace] of the first rune of [s]. *)
Definition first_rune_IsSpace (s : string) : bool :=
  match s with
  | EmptyString => false
  | String c1 r1 =>
      asciiSpace c1
      || match r1 with
         | EmptyString => false
         | String c2 r2 =>
             is_space2 (byte c1) (byte c2)
             || match r2 with
                | EmptyString => false
                | String c3 _ => is_space3 (byte c1) (byte c2) (byte c3)
                end
         end
  end.

(** [strings.TrimLeftFunc(s, unicode.IsSpace)]. *)
Fixpoint TrimLeft_IsSpace (s : string) : string :=
  match s with
  | EmptyString => s
  | String c1 r1 =>
      if asciiSpace c1 then TrimLeft_IsSpace r1
      else match r1 with
           | EmptyString => s
           | String c2 r2 =>
               if is_space2 (byte c1) (byte c2) then TrimLeft_IsSpace r2
               else match r2 with
                    | EmptyString => s
                    | String c3 r3 =>
                        if is_space3 (byte c1) (byte c2) (byte c3)
                        then TrimLeft_IsSpace r3
                        else s
                    end
           end
  end.

(** The same from the end, on the bytes in reverse order: the last rune is
    looked for behind its start byte, as [utf8.DecodeLastRuneInString] does. *)
Fixpoint trimRight_rev (l : list ascii) : list ascii :=
  match l with
  | [] => l
  | c3 :: r1 =>
      if asciiSpace c3 then trimRight_rev r1
      else match r1 with
           | [] => l
           | c2 :: r2 =>
               if is_space2 (byte c2) (byte c3) then trimRight_rev r2
               else match r2 with
                    | [] => l
                    | c1 :: r3 =>
                        if is_space3 (byte c1) (byte c2) (byte c3)
                        then trimRight_rev r3
                        else l
                    end
           end
  end.

Definition rev_bytes (s : string) : list ascii := rev (list_ascii_of_string s).
Definition of_rev_bytes (l : list ascii) : string := string_of_list_ascii (rev l).

(** [strings.TrimRightFunc(s, unicode.IsSpace)]. *)
Definition TrimRight_IsSpace (s : string) : string :=
  of_rev_bytes (trimRight_rev (rev_bytes s)).

(** The second loop of [TrimSpace], from the end of [s[start:]]. *)
Fixpoint TrimSpace_stop (l : list ascii) : list ascii :=
  match l with
  | [] => l
  | c :: r =>
      if 0x80 <=? byte c then trimRight_rev l
      else if asciiSpace c then TrimSpace_stop r
      else l
  end.

(** [strings.TrimSpace]: the first loop, from the start. *)
Fixpoint TrimSpace (s : string) : string :=
  match s with
  | EmptyString => s
  | String c r =>
      if 0x80 <=? byte c then TrimRight_IsSpace (TrimLeft_IsSpace s)
      else if asciiSpace c then TrimSpace r
      else of_rev_bytes (TrimSpace_stop (rev_bytes s))
  end.

(** ** strings.ToLower: the ASCII path *)

Fixpoint isASCII (s : string) : bool :=
  match s with
  | EmptyString => true
  | String c r => (byte c <? 0x80) && isASCII r
  end.

Definition lower_byte (c : ascii) : ascii :=
  if (65 <=? byte c) && (byte c <=? 90)
  then ascii_of_nat (nat_of_ascii c + 32)
  else c.

Fixpoint lower_ascii (s : string) : string :=
  match s with
  | EmptyString => EmptyString
  | String c r => String (lower_byte c) (lower_ascii r)
  end.

(** ** encoding/csv: Writer.Write with Comma = ',' and UseCRLF = false *)

Fixpoint has_special (s : string) : bool :=
  match s with
  | EmptyString => false
  | String c r =>
      Ascii.eqb c LF || Ascii.eqb c CR || Ascii.eqb c dquote
      || Ascii.eqb c "," || has_special r
  end.

Definition fieldNeedsQuotes (field : string) : bool :=
  if String.eqb field "" then false
  else if String.eqb field "\." then true
  else if has_special field then true
  else first_rune_IsSpace field.

(** The body of a quoted field: a quote is doubled, the rest is verbatim. *)
Fixpoint quote_body (s : string) : string :=
  match s with
  | EmptyString => EmptyString
  | String c r =>
      if Ascii.eqb c dquote then String dquote (String dquote (quote_body r))
      else String c (quote_body r)
  end.

Definition csv_field (field : string) : string :=
  if fieldNeedsQuotes field
  then String dquote (quote_body field ++ str1 dquote)
  else field.

Fixpoint csv_fields (n : nat) (record : list string) : string :=
  match record with
  | [] => EmptyString
  | field :: rest =>
      (if (0 <? n)%nat then "," else "") ++ csv_field field
      ++ csv_fields (S n) rest
  end.

(** What one [csvWriter.Write(record)] sends to the stream. *)
Definition csv_Write (record : list string) : string :=
  csv_fields 0 record ++ str1 LF.

(** ** Record types, as reflect.Type *)

(** The kinds of the types that are neither structs, pointers nor
    interfaces, among the kinds that have values here. *)
Inductive BasicKind : Type :=
| BBool
| BInt (k : IntKind)
| BUint (k : UintKind)
| BFloat (k : FloatKind)
| BString
| BOther (k : OtherKind).

Definition Kind_of_basic (b : BasicKind) : Kind :=
  match b with
  | BBool => Kind_Bool
  | BInt k => Kind_of_int k
  | BUint k => Kind_of_uint k
  | BFloat k => Kind_of_float k
  | BString => Kind_String
  | BOther k => Kind_of_other k
  end.

(** Types, each under the text [Type.String()] prints for it; the struct
    type that prints as [time.Time] is the standard library's. *)
Inductive GoType : Type :=
| TStruct (tname : string) (fields : list StructField)
| TPtr (elem : GoType)
| TInterface (tname : string)
| TBasic (tname : string) (b : BasicKind).

(** [reflect.TypeOf(zero)] for [var zero T]: nil when [T] is an interface
    type, whose zero value holds nothing. *)
Definition TypeOf_zero (T : GoType) : option GoType :=
  match T with
  | TInterface _ => None
  | _ => Some T
  end.

Definition Type_Kind (t : GoType) : Kind :=
  match t with
  | TStruct _ _ => Kind_Struct
  | TPtr _ => Kind_Ptr
  | TInterface _ => Kind_Interface
  | TBasic _ b => Kind_of_basic b
  end.

(** [Type.String()]. *)
Fixpoint Type_String (t : GoType) : string :=
  match t with
  | TStruct tname _ => tname
  | TPtr elem => "*" ++ Type_String elem
  | TInterface tname => tname
  | TBasic tname _ => tname
  end.

Definition Type_Elem (t : GoType) : outcome GoType :=
  match t with
  | TPtr elem => Ok elem
  | _ => Panic ("reflect: Elem of invalid type " ++ Type_String t)
  end.

Definition Type_NumField (t : GoType) : outcome nat :=
  match t with
  | TStruct _ fields => Ok (length fields)
  | _ => Panic ("reflect: NumField of non-struct type " ++ Type_String t)
  end.

Definition Type_Field (t : GoType) (i : nat) : outcome StructField :=
  match t with
  | TStruct _ fields =>
      match nth_error fields i with
      | Some f => Ok f
      | None => Panic "reflect: Field index out of bounds"
      end
  | _ => Panic ("reflect: Field of non-struct type " ++ Type_String t)
  end.

(** The type [writCSV] enumerates the fields of: [T], or what it points to. *)
Definition deref1 (t : GoType) : GoType :=
  match t with
  | TPtr elem => elem
  | _ => t
  end.

Definition Kind_eqb (a b : Kind) : bool :=
  match a, b with
  | Kind_Invalid, Kind_Invalid | Kind_Bool, Kind_Bool
  | Kind_Int, Kind_Int | Kind_Int8, Kind_Int8 | Kind_Int16, Kind_Int16
  | Kind_Int32, Kind_Int32 | Kind_Int64, Kind_Int64
  | Kind_Uint, Kind_Uint | Kind_Uint8, Kind_Uint8 | Kind_Uint16, Kind_Uint16
  | Kind_Uint32, Kind_Uint32 | Kind_Uint64, Kind_Uint64
  | Kind_Uintptr, Kind_Uintptr
  | Kind_Float32, Kind_Float32 | Kind_Float64, Kind_Float64
  | Kind_Complex64, Kind_Complex64 | Kind_Complex128, Kind_Complex128
  | Kind_Array, Kind_Array | Kind_Chan, Kind_Chan | Kind_Func, Kind_Func
  | Kind_Interface, Kind_Interface | Kind_Map, Kind_Map | Kind_Ptr, Kind_Ptr
  | Kind_Slice, Kind_Slice | Kind_String, Kind_String
  | Kind_Struct, Kind_Struct
  | Kind_UnsafePointer, Kind_UnsafePointer => true
  | _, _ => false
  end.

(** ** The file's own types *)

Record FieldWithTag : Type := mkFieldWithTag {
  name : string;
  tag : string
}.

Definition FieldWithTags : Type := list FieldWithTag.

(** [FieldWithTags.headers]: the tag when it is not empty, the name otherwise. *)
Definition headers (f : FieldWithTags) : list string :=
  fold_left
    (fun hs fwt =>
       if (String.length (tag fwt) =? 0)%nat
       then (hs ++ [name fwt])%list
       else (hs ++ [tag fwt])%list)
    f [].

(** [FieldWithTags.fields]. *)
Definition fields (f : FieldWithTags) : list string :=
  fold_left (fun fs fwt => (fs ++ [name fwt])%list) f [].

(** A Go slice: nil, or a (possibly empty) sequence of elements. *)
Definition slice (A : Type) : Type := option (list A).

Definition elems {A : Type} (s : slice A) : list A :=
  match s with
  | None => []
  | Some l => l
  end.

Inductive Error : Type :=
| UnsupportedTypeError (t : string)
| UnsupportedValueError (s : string)
| MarshalerError (t : string).

(** What a call leaves behind: the error it returned, if any, and the stream. *)
Definition result : Type := outcome (option Error * string).

(** ** encoding/json: documents, tokens and Indent *)

Inductive json : Type :=
| JLit (s : string)
| JArr (items : list json)
| JObj (members : list (string * json)).

(** The bytes [Marshal] produces, cut where the scanner of [Indent] cuts
    them: a structural byte, or the bytes of one literal (a string, a number,
    [true], [false], [null]), which the scanner passes through untouched. *)
Inductive jtok : Type :=
| Punct (c : ascii)
| Lit (s : string).

Fixpoint compact (j : json) : list jtok :=
  match j with
  | JLit s => [Lit s]
  | JArr items =>
      (Punct "[" ::
       (fix go (first : bool) (l : list json) : list jtok :=
          match l with
          | [] => []
          | x :: r =>
              (if first then [] else [Punct ","]) ++ compact x ++ go false r
          end) true items
       ++ [Punct "]"])%list
  | JObj members =>
      (Punct "{" ::
       (fix go (first : bool) (l : list (string * json)) : list jtok :=
          match l with
          | [] => []
          | (k, x) :: r =>
              (if first then [] else [Punct ","])
              ++ Lit k :: Punct ":" :: compact x ++ go false r
          end) true members
       ++ [Punct "}"])%list
  end.

Fixpoint repeat_string (s : string) (n : nat) : string :=
  match n with
  | O => EmptyString
  | S n' => s ++ repeat_string s n'
  end.

(** [appendNewline] with prefix [""] and indent ["  "]. *)
Definition newline (depth : Z) : string :=
  String LF (repeat_string "  " (Z.to_nat depth)).

Record indent_state : Type := mkIndent {
  needIndent : bool;
  depth : Z;
  dst : string
}.

Definition is_close (t : jtok) : bool :=
  match t with
  | Punct c => Ascii.eqb c "}" || Ascii.eqb c "]"
  | Lit _ => false
  end.

(** One round of the loop of [appendIndent], on one token. *)
Definition indent_step (st : indent_state) (t : jtok) : indent_state :=
  let st1 :=
    if needIndent st && negb (is_close t)
    then mkIndent false (depth st + 1) (dst st ++ newline (depth st + 1))
    else st in
  match t with
  | Lit s => mkIndent (needIndent st1) (depth st1) (dst st1 ++ s)
  | Punct c =>
      if Ascii.eqb c "{" || Ascii.eqb c "[" then
        mkIndent true (depth st1) (dst st1 ++ str1 c)
      else if Ascii.eqb c "," then
        mkIndent (needIndent st1) (depth st1)
                 (dst st1 ++ str1 c ++ newline (depth st1))
      else if Ascii.eqb c ":" then
        mkIndent (needIndent st1) (depth st1) (dst st1 ++ str1 c ++ " ")
      else if Ascii.eqb c "}" || Ascii.eqb c "]" then
        if needIndent st1
        then mkIndent false (depth st1) (dst st1 ++ str1 c)
        else mkIndent false (depth st1 - 1)
                      (dst st1 ++ newline (depth st1 - 1) ++ str1 c)
      else mkIndent (needIndent st1) (depth st1) (dst st1 ++ str1 c)
  end.

(** [json.Indent(&out, b, "", "  ")] on the output of [Marshal], which the
    scanner accepts. *)
Definition Indent (b : list jtok) : string :=
  dst (fold_left indent_step b (mkIndent false 0 EmptyString)).

(** The layout the specification describes: every element of an array and
    every member of an object on a line of its own, two spaces deeper than
    the bracket that holds it; an empty array or object on one line. *)
Fixpoint pretty (d : Z) (j : json) : string :=
  match j with
  | JLit s => s
  | JArr [] => "[]"
  | JArr items =>
      "[" ++
      (fix go (first : bool) (l : list json) : string :=
         match l with
         | [] => EmptyString
         | x :: r =>
             (if first then "" else ",") ++ newline (d + 1)
             ++ pretty (d + 1) x ++ go false r
         end) true items
      ++ newline d ++ "]"
  | JObj [] => "{}"
  | JObj members =>
      "{" ++
      (fix go (first : bool) (l : list (string * json)) : string :=
         match l with
         | [] => EmptyString
         | (k, x) :: r =>
             (if first then "" else ",") ++ newline (d + 1)
             ++ k ++ ": " ++ pretty (d + 1) x ++ go false r
         end) true members
      ++ newline d ++ "}"
  end.

Definition FormatUint (u : Z) : string :=
  NilZero.string_of_uint (N.to_uint (Z.to_N u)).

(** [parseTag] of encoding/json: the name before the first comma of a [json]
    tag, and the options after it. *)
Fixpoint tag_name (s : string) : string :=
  match s with
  | EmptyString => EmptyString
  | String c r => if Ascii.eqb c "," then EmptyString else String c (tag_name r)
  end.

Fixpoint tag_opts (s : string) : string :=
  match s with
  | EmptyString => EmptyString
  | String c r => if Ascii.eqb c "," then r else tag_opts r
  end.

(** The punctuation [isValidTag] allows in a name. *)
Fixpoint mem_ascii (c : ascii) (s : string) : bool :=
  match s with
  | EmptyString => false
  | String d r => Ascii.eqb c d || mem_ascii c r
  end.

Definition tag_punct (c : ascii) : bool :=
  mem_ascii c "!#$%&()*+-./:;<=>?@[]^_{|}~ ".

Definition ascii_letter_or_digit (c : ascii) : bool :=
  ((48 <=? byte c) && (byte c <=? 57))
  || ((65 <=? byte c) && (byte c <=? 90))
  || ((97 <=? byte c) && (byte c <=? 122)).

Fixpoint valid_tag_ascii (s : string) : bool :=
  match s with
  | EmptyString => true
  | String c r => (tag_punct c || ascii_letter_or_digit c) && valid_tag_ascii r
  end.

(** [appendHTMLEscape]: the bytes [<], [>], [&] and the encodings of U+2028
    and U+2029, as [\u] escapes. *)
Fixpoint HTMLEscape (s : string) : string :=
  match s with
  | EmptyString => EmptyString
  | String c r =>
      if Ascii.eqb c "<" then "\u003c" ++ HTMLEscape r
      else if Ascii.eqb c ">" then "\u003e" ++ HTMLEscape r
      else if Ascii.eqb c "&" then "\u0026" ++ HTMLEscape r
      else
        match r with
        | String c2 (String c3 r3) =>
            if (byte c =? 0xE2) && (byte c2 =? 0x80) && (byte c3 =? 0xA8)
            then " " ++ HTMLEscape r3
            else if (byte c =? 0xE2) && (byte c2 =? 0x80) && (byte c3 =? 0xA9)
            then " " ++ HTMLEscape r3
            else String c (HTMLEscape r)
        | _ => String c (HTMLEscape r)
        end
  end.

Record Output : Type := mkOutput {
  writer : string;
  format : string
}.

Definition NewOutput (w : string) (fmt : string) : Output := mkOutput w fmt.

(** ** The functions of the file *)

Section Render.

(** Library behaviour taken as given: [time.Time.String], the Unicode
    path of [strings.ToLower], and of encoding/json: the literal encoders
    (strings, finite floats, [time.Time.MarshalJSON]), what it writes for a
    slice of a byte type, what it does with a value whose type has a marshal
    method of its own or embedded fields ([None] for every other value),
    what the options of a [json] tag ([omitempty], [string], ...) make of a
    field value ([None] when the field is omitted), and which names with
    bytes outside ASCII [isValidTag] accepts. *)
Variable time_String : GoValue -> string.
Variable unicode_ToLower : string -> string.
Variable json_string : string -> string.
Variable json_float : FloatKind -> spec_float -> string.
Variable time_MarshalJSON : GoValue -> option string.
Variable json_bytes : list GoValue -> Error + json.
Variable json_special : GoValue -> option (Error + json).
Variable json_tag_options : string -> GoValue -> option (Error + json).
Variable unicode_validTag : string -> bool.

Fixpoint hasUpper (s : string) : bool :=
  match s with
  | EmptyString => false
  | String c r => ((65 <=? byte c) && (byte c <=? 90)) || hasUpper r
  end.

Definition ToLower (s : string) : string :=
  if isASCII s
  then (if hasUpper s then lower_ascii s else s)
  else unicode_ToLower s.

(** [toString]: the switch on the kind, then the test on the type name
    with [Value.Interface] and the assertion to [time.Time], then the empty
    text. *)
Definition toString (v : Value) : outcome string :=
  match Value_Kind v with
  | Kind_Invalid => Ok "<invalid Value>"
  | Kind_String => Value_String v
  | Kind_Int | Kind_Int8 | Kind_Int16 | Kind_Int32 | Kind_Int64 =>
      i <- Value_Int v ;; Ok (FormatInt i)
  | Kind_Float32 | Kind_Float64 =>
      f <- Value_Float v ;; Ok (Sprintf_2f f)
  | Kind_Bool =>
      b <- Value_Bool v ;; Ok (FormatBool b)
  | _ =>
      t <- Value_Type_String v ;;
      if String.eqb t "time.Time"
      then x <- Value_Interface v ;;
           tm <- assert_Time x ;;
           Ok (time_String tm)
      else Ok ""
  end.

(** The policy table of the stringifier, as a function of the Go value. *)
Definition policy (x : GoValue) : string :=
  match repr x with
  | VString s => s
  | VInt _ i => FormatInt i
  | VFloat _ f => Sprintf_2f f
  | VBool b => FormatBool b
  | _ =>
      if String.eqb (GoValue_Type_String x) "time.Time" then time_String x
      else ""
  end.

(** The loop over [t.NumField()] of [writCSV]. *)
Fixpoint discover_loop (t : GoType) (i : nat) (todo : nat)
         (fieldWithTags : FieldWithTags) : outcome FieldWithTags :=
  match todo with
  | O => Ok fieldWithTags
  | S todo' =>
      field <- Type_Field t i ;;
      discover_loop t (S i) todo'
        (fieldWithTags ++ [mkFieldWithTag (Name field) (Tag_csv field)])%list
  end.

Definition discover (t : GoType) : outcome FieldWithTags :=
  n <- Type_NumField t ;;
  discover_loop t 0 n [].

(** The inner loop of [writCSV]: one cell per field name. *)
Fixpoint row_loop (v : Value) (fs : list string) (row : list string)
  : outcome (list string) :=
  match fs with
  | [] => Ok row
  | field :: rest =>
      value <- Value_FieldByName v field ;;
      cell <- toString value ;;
      row_loop v rest (row ++ [cell])%list
  end.

(** The value the fields of one record are read from. *)
Definition record_Value (record : GoValue) : outcome Value :=
  if Kind_eqb (GoValue_Kind record) Kind_Ptr
  then Value_Elem (Val false record)
  else Ok (Val false record).

(** The loop over the records of [writCSV]. *)
Fixpoint content_loop (fs : list string) (records : list GoValue)
         (content : list (list string)) : outcome (list (list string)) :=
  match records with
  | [] => Ok content
  | record :: rest =>
      v <- record_Value record ;;
      row <- row_loop v fs [] ;;
      content_loop fs rest (content ++ [row])%list
  end.

(** The rows of [writCSV] before any of them is written. *)
Definition csv_content (T : GoType) (records : slice GoValue)
  : outcome (list (list string)) :=
  match TypeOf_zero T with
  | None => Panic "runtime error: invalid memory address or nil pointer dereference"
  | Some t0 =>
      t <- (if Kind_eqb (Type_Kind t0) Kind_Ptr then Type_Elem t0 else Ok t0) ;;
      fieldWithTags <- discover t ;;
      content_loop (fields fieldWithTags) (elems records)
                   [headers fieldWithTags]
  end.

Definition writCSV (T : GoType) (records : slice GoValue) (w : string)
  : result :=
  content <- csv_content T records ;;
  Ok (None, fold_left (fun out record => out ++ csv_Write record) content w).

(** The fields encoding/json keeps of a struct without embedded fields
    ([typeFields]): a field is a candidate when it is exported and its tag is
    not [-]; it goes under the name of its tag when that is a valid name,
    under its identifier otherwise; among the candidates of one name a
    single tagged one wins, and without a tagged one a single candidate. *)
Definition isValidTag (s : string) : bool :=
  if String.eqb s "" then false
  else if isASCII s then valid_tag_ascii s
  else unicode_validTag s.

Definition json_tagged (f : StructField) : bool :=
  isValidTag (tag_name (Tag_json f)).

Definition json_name (f : StructField) : string :=
  if json_tagged f then tag_name (Tag_json f) else Name f.

Definition candidate (f : StructField) : bool :=
  Exported f && negb (String.eqb (Tag_json f) "-").

Definition same_name (all : list StructField) (f : StructField)
  : list StructField :=
  filter (fun g => candidate g && String.eqb (json_name g) (json_name f)) all.

Definition selected (all : list StructField) (f : StructField) : bool :=
  candidate f
  && (if json_tagged f
      then (length (filter json_tagged (same_name all f)) =? 1)%nat
      else (length (filter json_tagged (same_name all f)) =? 0)%nat
           && (length (same_name all f) =? 1)%nat).

(** An object key: the name, HTML-escaped, between quotes. *)
Definition json_key (f : StructField) : string :=
  String dquote (HTMLEscape (json_name f) ++ str1 dquote).

(** What stands in for the default encoding of a value of its own type:
    the method of [time.Time], or what the library is given to do. *)
Definition json_override (x : GoValue) : option (Error + json) :=
  if is_std_time x then
    Some match time_MarshalJSON x with
         | Some s => inr (JLit s)
         | None => inl (MarshalerError "time.Time")
         end
  else json_special x.

(** [json.Marshal] on one value: [typed] when the value stands there under
    its own type, not as the representation of a defined type. *)
Fixpoint marshalAs (typed : bool) (x : GoValue) {struct x} : Error + json :=
  match (if typed then json_override x else None) with
  | Some r => r
  | None =>
      match x with
      | VBool b => inr (JLit (FormatBool b))
      | VInt _ i => inr (JLit (FormatInt i))
      | VUint _ u => inr (JLit (FormatUint u))
      | VFloat k f =>
          if is_finite_float f then inr (JLit (json_float k f))
          else inl (UnsupportedValueError (Sprintf_2f f))
      | VString s => inr (JLit (json_string s))
      | VStruct tname fs =>
          match
            (fix members (l : list (StructField * GoValue))
               : Error + list (string * json) :=
               match l with
               | [] => inr []
               | (f, y) :: rest =>
                   if selected (map fst fs) f then
                     match
                       (if String.eqb (tag_opts (Tag_json f)) ""
                        then Some (marshalAs true y)
                        else json_tag_options (tag_opts (Tag_json f)) y)
                     with
                     | None => members rest
                     | Some (inl e) => inl e
                     | Some (inr j) =>
                         match members rest with
                         | inl e => inl e
                         | inr ms => inr ((json_key f, j) :: ms)
                         end
                     end
                   else members rest
               end) fs
          with
          | inl e => inl e
          | inr ms => inr (JObj ms)
          end
      | VPtr _ None => inr (JLit "null")
      | VPtr _ (Some y) => marshalAs true y
      | VOther _ => inl (UnsupportedTypeError (GoValue_Type_String x))
      | VDefined _ y => marshalAs false y
      end
  end.

Definition marshalValue (x : GoValue) : Error + json := marshalAs true x.

(** The loop over the fields of a struct inside [marshalAs], by name. *)
Definition marshalMembers (all : list StructField)
  : list (StructField * GoValue) -> Error + list (string * json) :=
  fix members (l : list (StructField * GoValue))
    : Error + list (string * json) :=
    match l with
    | [] => inr []
    | (f, y) :: rest =>
        if selected all f then
          match
            (if String.eqb (tag_opts (Tag_json f)) ""
             then Some (marshalValue y)
             else json_tag_options (tag_opts (Tag_json f)) y)
          with
          | None => members rest
          | Some (inl e) => inl e
          | Some (inr j) =>
              match members rest with
              | inl e => inl e
              | inr ms => inr ((json_key f, j) :: ms)
              end
          end
        else members rest
    end.

Fixpoint marshalItems (l : list GoValue) : Error + list json :=
  match l with
  | [] => inr []
  | x :: rest =>
      match marshalValue x with
      | inl e => inl e
      | inr j =>
          match marshalItems rest with
          | inl e => inl e
          | inr js => inr (j :: js)
          end
      end
  end.

(** [json.Marshal(records)]: [null] for a nil slice, what the library
    writes for a slice of a byte type, an array otherwise. *)
Definition Marshal (T : GoType) (records : slice GoValue) : Error + json :=
  match records with
  | None => inr (JLit "null")
  | Some l =>
      if Kind_eqb (Type_Kind T) Kind_Uint8 then json_bytes l
      else match marshalItems l with
           | inl e => inl e
           | inr js => inr (JArr js)
           end
  end.

Definition writeJson (T : GoType) (records : slice GoValue) (w : string)
  : result :=
  match Marshal T records with
  | inl err => Ok (Some err, w)
  | inr j =>
      let b := compact j in
      let out := Indent b in
      Ok (None, w ++ out)
  end.

(** [Output.Write]. *)
Definition Write (o : Output) (T : GoType) (records : slice GoValue)
  : result :=
  let f := ToLower (TrimSpace (format o)) in
  if String.eqb f "" then Ok (None, writer o)
  else if String.eqb f "json" then writeJson T records (writer o)
  else if String.eqb f "csv" then writCSV T records (writer o)
  else Ok (None, writer o).

End Render.

(** ** Reading aids for the statements *)

(** A header cell as the specification words it: the display-name override
    when there is one, the field identifier otherwise. *)
Definition header_cell (f : StructField) : string :=
  if String.eqb (Tag_csv f) "" then Name f else Tag_csv f.

(** The declared fields of a record type: a struct, or a pointer to one. *)
Definition record_fields (T : GoType) : option (list StructField) :=
  match T with
  | TStruct _ fs => Some fs
  | TPtr (TStruct _ fs) => Some fs
  | _ => None
  end.

Definition is_record_type (T : GoType) : bool :=
  match record_fields T with
  | Some _ => true
  | None => false
  end.

(** The descriptor [writCSV] builds from one declared field. *)
Definition descriptor (f : StructField) : FieldWithTag :=
  mkFieldWithTag (Name f) (Tag_csv f).

(** The header row, from the type alone. *)
Definition type_header (T : GoType) : list string :=
  match record_fields T with
  | Some fs => map header_cell fs
  | None => []
  end.

(** Rows as CSV text, one line each. *)
Fixpoint csv_text (rows : list (list string)) : string :=
  match rows with
  | [] => EmptyString
  | r :: rest => csv_Write r ++ csv_text rest
  end.

(** The loops inside [compact], [pretty] and [marshalValue], by name. *)
Fixpoint compact_items (first : bool) (l : list json) : list jtok :=
  match l with
  | [] => []
  | x :: r =>
      ((if first then [] else [Punct ","]) ++ compact x ++ compact_items false r)%list
  end.

Fixpoint compact_members (first : bool) (l : list (string * json)) : list jtok :=
  match l with
  | [] => []
  | (k, x) :: r =>
      ((if first then [] else [Punct ","])
       ++ Lit k :: Punct ":" :: compact x ++ compact_members false r)%list
  end.

Definition pretty_items (d : Z) : bool -> list json -> string :=
  fix go (first : bool) (l : list json) : string :=
    match l with
    | [] => EmptyString
    | x :: r =>
        (if first then "" else ",") ++ newline (d + 1)
        ++ pretty (d + 1) x ++ go false r
    end.

Definition pretty_members (d : Z) : bool -> list (string * json) -> string :=
  fix go (first : bool) (l : list (string * json)) : string :=
    match l with
    | [] => EmptyString
    | (k, x) :: r =>
        (if first then "" else ",") ++ newline (d + 1)
        ++ k ++ ": " ++ pretty (d + 1) x ++ go false r
    end.

(** Induction on JSON documents, through the lists they hold. *)
Fixpoint json_nested_ind (P : json -> Prop)
         (HLit : forall s, P (JLit s))
         (HArr : forall items, Forall P items -> P (JArr items))
         (HObj : forall members,
             Forall (fun kx => P (snd kx)) members -> P (JObj members))
         (j : json) : P j :=
  match j with
  | JLit s => HLit s
  | JArr items =>
      HArr items
        ((fix go (l : list json) : Forall P l :=
            match l with
            | [] => Forall_nil P
            | x :: r =>
                Forall_cons x (json_nested_ind P HLit HArr HObj x) (go r)
            end) items)
  | JObj members =>
      HObj members
        ((fix go (l : list (string * json))
           : Forall (fun kx => P (snd kx)) l :=
            match l with
            | [] => Forall_nil _
            | kx :: r =>
                Forall_cons kx (json_nested_ind P HLit HArr HObj (snd kx)) (go r)
            end) members)
  end.

(** The loop of [Indent] from a given state. *)
Definition run (st : indent_state) (b : list jtok) : indent_state :=
  fold_left indent_step b st.

(** The depth and the text [Indent] has reached once a value has begun:
    one level deeper and on a fresh line when an opening bracket was
    pending. *)
Definition after (pending : bool) (d : Z) : Z := if pending then d + 1 else d.
Definition lead (pending : bool) (d : Z) : string :=
  if pending then newline (d + 1) else EmptyString.

(** What the loop of [Indent] does on the tokens of one document. *)
Definition indent_spec (j : json) : Prop :=
  forall (pending : bool) (d : Z) (out : string),
    run (mkIndent pending d out) (compact j)
    = mkIndent false (after pending d)
               (out ++ lead pending d ++ pretty (after pending d) j).

(** A text made of ASCII white space only. *)
Fixpoint all_space (s : string) : bool :=
  match s with
  | EmptyString => true
  | String c r => asciiSpace c && all_space r
  end.

(** An ASCII byte that is not white space: where trimming stops. *)
Definition edge_byte (c : ascii) : bool :=
  (byte c <? 0x80) && negb (asciiSpace c).

(** Whether a value gets past the switch on the kind of the stringifier. *)
Definition falls_through (x : GoValue) : bool :=
  match repr x with
  | VString _ | VInt _ _ | VFloat _ _ | VBool _ => false
  | _ => true
  end.

(** Whether the stringifier returns on a value, read-only or not: it
    does unless the value falls through the switch on the kind under a type
    that prints as [time.Time] and is read-only or not the standard type. *)
Definition printable (ro : bool) (x : GoValue) : bool :=
  match repr x with
  | VString _ | VInt _ _ | VFloat _ _ | VBool _ => true
  | _ =>
      negb (String.eqb (GoValue_Type_String x) "time.Time")
      || (negb ro && is_std_time x)
  end.

(** A field value the stringifier returns on, where the field sits. *)
Definition field_ok (fx : StructField * GoValue) : bool :=
  printable (negb (Exported (fst fx))) (snd fx).

(** A record of the record type [T] that holds a struct: a struct of the
    struct type [T] with a value for each declared field, in order, or a
    non-nil pointer to one when [T] is a pointer type. *)
Definition record_of (T : GoType) (r : GoValue) : Prop :=
  match T with
  | TStruct tname fs =>
      exists fvs, r = VStruct tname fvs /\ map fst fvs = fs
  | TPtr (TStruct tname fs) =>
      exists fvs, r = VPtr tname (Some (VStruct tname fvs)) /\ map fst fvs = fs
  | _ => False
  end.

(** The fields and values a record is read from in tabular mode: those of
    the struct itself, or of the struct a non-nil pointer record points to. *)
Definition struct_values (r : GoValue) : option (list (StructField * GoValue)) :=
  match r with
  | VStruct _ fvs => Some fvs
  | VPtr _ (Some (VStruct _ fvs)) => Some fvs
  | _ => None
  end.

(** A record of [T] on whose field values the stringifier returns. *)
Definition readable_record (T : GoType) (r : GoValue) : Prop :=
  record_of T r
  /\ exists fvs, struct_values r = Some fvs /\ forallb field_ok fvs = true.

(** The cells of the data row of a record: its field values through the
    policy table, in the order of its fields. *)
Definition record_cells (time_String : GoValue -> string) (r : GoValue)
  : list string :=
  match struct_values r with
  | Some fvs => map (fun fx => policy time_String (snd fx)) fvs
  | None => []
  end.

(** Values encoding/json refuses when it encodes them by their kind: a NaN
    or an infinity, and the kinds it has no encoding for (complex numbers,
    channels, functions, unsafe pointers). *)
Definition unserializable (x : GoValue) : bool :=
  match repr x with
  | VFloat _ f => negb (is_finite_float f)
  | VOther _ => true
  | _ => false
  end.

(** A record type without [json] tags. *)
Definition plain_fields (fs : list StructField) : bool :=
  forallb (fun f => String.eqb (Tag_json f) "") fs.

(** The key of a field without a [json] tag: its identifier between quotes
    (the HTML escape leaves an identifier as it is). *)
Definition plain_key (f : StructField) : string :=
  String dquote (HTMLEscape (Name f) ++ str1 dquote).

(** The keys of the object of a struct without [json] tags: its exported
    field identifiers, quoted, in declaration order. *)
Definition object_keys (fs : list StructField) : list string :=
  map plain_key (filter Exported fs).

(** A struct of a type without [json] tags, embedded fields or a marshal
    method of its own, with distinct field names; [time.Time] has such a
    method. *)
Definition plain_struct (json_special : GoValue -> option (Error + json))
           (x : GoValue) (fvs : list (StructField * GoValue)) : Prop :=
  exists tname,
    x = VStruct tname fvs
    /\ String.eqb tname "time.Time" = false
    /\ json_special x = None
    /\ plain_fields (map fst fvs) = true
    /\ NoDup (map Name (map fst fvs)).

(** A record that is such a struct, or a pointer to one. *)
Definition plain_record (json_special : GoValue -> option (Error + json))
           (x : GoValue) (fvs : list (StructField * GoValue)) : Prop :=
  plain_struct json_special x fvs
  \/ exists elem y,
      x = VPtr elem (Some y)
      /\ json_special x = None
      /\ plain_struct json_special y fvs.

(** ** Sample data

    A record type with one renamed column, two of its records, a record
    type with an unexported timestamp, and stand-ins for the library
    functions that the development takes as parameters. *)

Definition fName : StructField := mkField "Name" true "full_name" "".
Definition fAge : StructField := mkField "Age" true "" "".
Definition fSeen : StructField := mkField "seen" false "" "".
Definition fNameAsN : StructField := mkField "Name" true "full_name" "n".

Definition Person : GoType := TStruct "main.Person" [fName; fAge].
Definition ann : GoValue :=
  VStruct "main.Person" [(fName, VString "Ann"); (fAge, VInt I_ 30)].
Definition bo : GoValue :=
  VStruct "main.Person" [(fName, VString "Bo"); (fAge, VInt I_ 4)].

Definition Visit : GoType := TStruct "main.Visit" [fName; fSeen].
Definition a_time : GoValue := VStruct "time.Time" [].
Definition visit : GoValue :=
  VStruct "main.Visit" [(fName, VString "Ann"); (fSeen, a_time)].

Definition Tagged : GoType := TStruct "main.Tagged" [fNameAsN; fAge].
Definition tagged_ann : GoValue :=
  VStruct "main.Tagged" [(fNameAsN, VString "Ann"); (fAge, VInt I_ 30)].

(** A counter of an unsigned type declared as [Time] in a package named
    [time] that is not the standard library's, and a record type with an
    exported field of that type. *)
Definition foreign_counter : GoValue := VDefined "time.Time" (VUint U64 7).
Definition fHits : StructField := mkField "Hits" true "" "".
Definition fScore : StructField := mkField "Score" true "" "".
Definition Scored : GoType := TStruct "main.Scored" [fName; fScore].
Definition scored_ann : GoValue :=
  VStruct "main.Scored"
          [(fName, VString "Ann"); (fScore, VFloat F64 (S754_finite false 3 (-1)))].
Definition scored_cy : GoValue :=
  VStruct "main.Scored" [(fName, VString "Cy"); (fScore, VFloat F64 S754_nan)].
Definition Meter : GoType := TStruct "main.Meter" [fHits].

Definition sample_time_String (x : GoValue) : string :=
  "2024-01-02 03:04:05 +0000 UTC".
Definition sample_ToLower (s : string) : string := s.
Definition sample_json_string (s : string) : string :=
  String dquote (s ++ str1 dquote).
Definition sample_json_float (k : FloatKind) (f : spec_float) : string :=
  Sprintf_2f f.
Definition sample_MarshalJSON (x : GoValue) : option string :=
  Some (sample_json_string "2024-01-02T03:04:05Z").
Definition sample_json_bytes (l : list GoValue) : Error + json :=
  inr (JLit (sample_json_string "")).
Definition sample_json_special (x : GoValue) : option (Error + json) := None.
Definition sample_tag_options (opts : string) (x : GoValue)
  : option (Error + json) := None.
Definition sample_validTag (s : string) : bool := false.

(** How far the printed hundredths [q] may be from [m * 2^e]: not at all
    when the value is an integer, half a hundredth at most otherwise. *)
Definition nearest_hundredth (m : positive) (e q : Z) : Prop :=
  if 0 <=? e then q = Z.pos m * 2 ^ e * 100
  else Z.abs (2 * (Z.pos m * 100) - 2 * q * 2 ^ (- e)) <= 2 ^ (- e).

(** * Properties *)

(** ** Decimal numerals and the two patterns *)

Lemma all_digits_of_uint (d : Decimal.uint) :
  all_digits (NilEmpty.string_of_uint d) = true.
Proof.
  induction d; simpl; auto.
Qed.

Lemma digits1_of_uint (d : Decimal.uint) :
  digits1 (NilZero.string_of_uint d) = true.
Proof.
  destruct d; simpl; try reflexivity; apply all_digits_of_uint.
Qed.

Lemma digit_not_minus (c : ascii) :
  is_digit c = true -> Ascii.eqb c "-" = false.
Proof.
  intros H. destruct (Ascii.eqb_spec c "-") as [->|]; [discriminate H|reflexivity].
Qed.

Lemma digits1_matches_int (s : string) :
  digits1 s = true -> matches_int s = true.
Proof.
  destruct s as [|c r]; simpl; [discriminate|].
  intros H. apply andb_true_iff in H as [Hc Hr].
  rewrite (digit_not_minus c Hc), Hc, Hr. reflexivity.
Qed.

Lemma FormatInt_matches (i : Z) : matches_int (FormatInt i) = true.
Proof.
  unfold FormatInt. destruct i as [|p|p]; simpl.
  - reflexivity.
  - apply digits1_matches_int, digits1_of_uint.
  - apply digits1_of_uint.
Qed.

Lemma is_digit_digit (d : Z) : 0 <= d < 10 -> is_digit (digit d) = true.
Proof.
  intros H.
  assert (C : d = 0 \/ d = 1 \/ d = 2 \/ d = 3 \/ d = 4 \/ d = 5 \/ d = 6
              \/ d = 7 \/ d = 8 \/ d = 9) by lia.
  repeat (destruct C as [-> | C]; [reflexivity|]). subst d. reflexivity.
Qed.

Lemma digits_dot_2_app (ds : string) (a b : ascii) (seen : bool) :
  all_digits ds = true ->
  digits_dot_2 seen (ds ++ String "." (String a (String b EmptyString)))
  = (seen || negb (String.eqb ds "")) && (is_digit a && is_digit b).
Proof.
  revert seen. induction ds as [|c r IH]; intros seen H.
  - simpl. rewrite orb_false_r. reflexivity.
  - simpl in H. apply andb_true_iff in H as [Hc Hr].
    change (String c r ++ String "." (String a (String b EmptyString)))
      with (String c (r ++ String "." (String a (String b EmptyString)))).
    cbn [digits_dot_2]. rewrite Hc, (IH true Hr).
    simpl. rewrite orb_true_r. reflexivity.
Qed.

Lemma fixed2_matches (neg : bool) (q : Z) : matches_fixed2 (fixed2 neg q) = true.
Proof.
  unfold fixed2, str1.
  set (ds := NilZero.string_of_uint (N.to_uint (Z.to_N (q / 100)))).
  set (a := digit ((q / 10) mod 10)). set (b := digit (q mod 10)).
  change ("." ++ String a (String b EmptyString))
    with (String "." (String a (String b EmptyString))).
  assert (Hd : digits1 ds = true) by apply digits1_of_uint.
  assert (Ha : is_digit a = true)
    by (apply is_digit_digit, Z.mod_pos_bound; lia).
  assert (Hb : is_digit b = true)
    by (apply is_digit_digit, Z.mod_pos_bound; lia).
  clearbody ds a b.
  destruct ds as [|c r]; [discriminate Hd|].
  assert (Hbody : digits_dot_2 false
                    (String c r ++ String "." (String a (String b EmptyString)))
                  = true).
  { rewrite digits_dot_2_app by exact Hd. rewrite Ha, Hb. reflexivity. }
  simpl in Hd. apply andb_true_iff in Hd as [Hc _].
  destruct neg.
  - exact Hbody.
  - change ("" ++ String c r ++ String "." (String a (String b EmptyString)))
      with (String c (r ++ String "." (String a (String b EmptyString)))).
    cbn [matches_fixed2]. rewrite (digit_not_minus c Hc). exact Hbody.
Qed.

Lemma round_half_even_nearest (num den : Z) :
  0 < den ->
  Z.abs (2 * num - 2 * round_half_even num den * den) <= den.
Proof.
  intros Hden. unfold round_half_even.
  pose proof (Z.div_mod num den ltac:(lia)) as E.
  pose proof (Z.mod_pos_bound num den Hden) as B.
  set (q := num / den) in *. set (r := num mod den) in *.
  destruct (Z.ltb_spec (2 * r) den); [nia|].
  destruct (Z.ltb_spec den (2 * r)); [nia|].
  destruct (Z.even q); nia.
Qed.

Lemma hundredths_nearest (m : positive) (e : Z) :
  nearest_hundredth m e (hundredths m e).
Proof.
  unfold nearest_hundredth, hundredths.
  destruct (Z.leb_spec 0 e); [reflexivity|].
  apply round_half_even_nearest. apply Z.pow_pos_nonneg; lia.
Qed.

Section Properties.

Variable time_String : GoValue -> string.
Variable unicode_ToLower : string -> string.
Variable json_string : string -> string.
Variable json_float : FloatKind -> spec_float -> string.
Variable time_MarshalJSON : GoValue -> option string.
Variable json_bytes : list GoValue -> Error + json.
Variable json_special : GoValue -> option (Error + json).
Variable json_tag_options : string -> GoValue -> option (Error + json).
Variable unicode_validTag : string -> bool.

Local Abbreviation toString' := (toString time_String).
Local Abbreviation policy' := (policy time_String).
Local Abbreviation record_cells' := (record_cells time_String).
Local Abbreviation row_loop' := (row_loop time_String).
Local Abbreviation content_loop' := (content_loop time_String).
Local Abbreviation csv_content' := (csv_content time_String).
Local Abbreviation writCSV' := (writCSV time_String).
Local Abbreviation selected' := (selected unicode_validTag).
Local Abbreviation json_key' := (json_key unicode_validTag).
Local Abbreviation json_override' := (json_override time_MarshalJSON json_special).
Local Abbreviation marshalAs' :=
  (marshalAs json_string json_float time_MarshalJSON json_special
             json_tag_options unicode_validTag).
Local Abbreviation marshalValue' :=
  (marshalValue json_string json_float time_MarshalJSON json_special
                json_tag_options unicode_validTag).
Local Abbreviation marshalMembers' :=
  (marshalMembers json_string json_float time_MarshalJSON json_special
                  json_tag_options unicode_validTag).
Local Abbreviation marshalItems' :=
  (marshalItems json_string json_float time_MarshalJSON json_special
                json_tag_options unicode_validTag).
Local Abbreviation Marshal' :=
  (Marshal json_string json_float time_MarshalJSON json_bytes json_special
           json_tag_options unicode_validTag).
Local Abbreviation writeJson' :=
  (writeJson json_string json_float time_MarshalJSON json_bytes json_special
             json_tag_options unicode_validTag).
Local Abbreviation Write' :=
  (Write time_String unicode_ToLower json_string json_float
         time_MarshalJSON json_bytes json_special json_tag_options
         unicode_validTag).
Local Abbreviation plain_struct' := (plain_struct json_special).
Local Abbreviation plain_record' := (plain_record json_special).

(** ** The stringifier *)

Lemma toString_Invalid : toString' Invalid = Ok "<invalid Value>".
Proof. reflexivity. Qed.

Lemma repr_not_defined (x : GoValue) :
  forall tname y, repr x <> VDefined tname y.
Proof.
  induction x; intros tn y; simpl; try discriminate. apply IHx.
Qed.

(** Where the stringifier returns, it follows the policy table. *)
Lemma toString_returns (ro : bool) (x : GoValue) :
  printable ro x = true -> toString' (Val ro x) = Ok (policy' x).
Proof.
  unfold printable, toString, policy, Value_Kind, GoValue_Kind, Value_String,
    Value_Int, Value_Float, Value_Bool, Value_Type_String, Value_Interface,
    assert_Time.
  pose proof (repr_not_defined x) as ND.
  destruct (repr x) as [b|k i|k u|k f|s|tn fs|el tg|k|tn y];
    try (now destruct (ND tn y));
    try (destruct k; reflexivity); try reflexivity;
    intros H;
    try (destruct k); cbn [Kind_of_uint Kind_of_other bind];
    destruct (String.eqb (GoValue_Type_String x) "time.Time"); try reflexivity;
    simpl in H; apply andb_true_iff in H as [Hro Hstd];
    apply negb_true_iff in Hro; subst ro; cbn [bind]; rewrite Hstd; reflexivity.
Qed.

(** Where it does not return, it panics. *)
Lemma toString_panics (ro : bool) (x : GoValue) :
  printable ro x = false -> exists msg, toString' (Val ro x) = Panic msg.
Proof.
  unfold printable, toString, Value_Kind, GoValue_Kind, Value_Type_String,
    Value_Interface, assert_Time.
  pose proof (repr_not_defined x) as ND.
  destruct (repr x) as [b|k i|k u|k f|s|tn fs|el tg|k|tn y];
    try (now destruct (ND tn y)); try discriminate;
    intros H; apply orb_false_iff in H as [Hname Hrest];
    apply negb_false_iff in Hname;
    try (destruct k); cbn [Kind_of_uint Kind_of_other bind]; rewrite Hname;
    destruct ro; cbn [bind]; try (eexists; reflexivity);
    simpl in Hrest; rewrite Hrest; eexists; reflexivity.
Qed.

(** On a value that can be read back ([Value.Interface] allowed) and whose
    type does not print as [time.Time] without being the standard type, the
    stringifier follows the policy table and returns. *)
Lemma toString_policy (x : GoValue) :
  String.eqb (GoValue_Type_String x) "time.Time" = false \/ is_std_time x = true ->
  toString' (Val false x) = Ok (policy' x).
Proof.
  intros H. apply toString_returns. unfold printable.
  destruct (repr x); try reflexivity;
    destruct H as [-> | ->]; simpl; auto using orb_true_r.
Qed.

(** A value read out of an unexported field is stringified alike, unless
    its type prints as [time.Time]. *)
Lemma toString_policy_ro (x : GoValue) :
  String.eqb (GoValue_Type_String x) "time.Time" = false ->
  toString' (Val true x) = Ok (policy' x).
Proof.
  intros H. apply toString_returns. unfold printable.
  destruct (repr x); try reflexivity; now rewrite H.
Qed.

(** C3 (as amended): a finite floating-point value is printed in the form
    [-?\d+\.\d{2}], the two decimals being the nearest hundredth (a tie
    goes to the even one), and a signed integer of any width in the form
    [-?\d+]. *)
Theorem toString_numeric_patterns (ro : bool) (fk : FloatKind)
        (f : spec_float) (Hfin : is_finite_float f = true) :
  (exists s, toString' (Val ro (VFloat fk f)) = Ok s
             /\ matches_fixed2 s = true
             /\ match f with
                | S754_finite neg m e =>
                    exists q, s = fixed2 neg q /\ nearest_hundredth m e q
                | _ => s = fixed2 (match f with S754_zero n => n | _ => false end) 0
                end)
  /\ (forall (ik : IntKind) (i : Z),
         exists s, toString' (Val ro (VInt ik i)) = Ok s
                   /\ matches_int s = true).
Proof.
  split.
  - exists (Sprintf_2f f). split; [destruct fk; reflexivity|].
    destruct f as [n|n| |n m e]; try discriminate Hfin; simpl.
    + split; [apply fixed2_matches|reflexivity].
    + split; [apply fixed2_matches|].
      exists (hundredths m e). split; [reflexivity|apply hundredths_nearest].
  - intros ik i. exists (FormatInt i).
    split; [destruct ik; reflexivity|apply FormatInt_matches].
Qed.

(** C4 (the code at the failing input): the stringifier does not return
    on a timestamp read out of an unexported field; [Value.Interface]
    panics, and the tabular renderer with it. *)
Theorem toString_unexported_time_panics :
  (forall fs : list (StructField * GoValue),
      toString' (Val true (VStruct "time.Time" fs))
      = Panic "reflect.Value.Interface: cannot return value obtained from unexported field or method")
  /\ (forall w : string,
         writCSV' Visit (Some [visit]) w
         = Panic "reflect.Value.Interface: cannot return value obtained from unexported field or method").
Proof.
  split; intros; reflexivity.
Qed.

(** An unsigned integer of a built-in type, or of a defined type that
    does not print as [time.Time], is stringified to the empty text: the
    integer case lists the signed kinds only. *)
Lemma toString_unsigned_other (ro : bool) (x : GoValue) (k : UintKind) (u : Z) :
  repr x = VUint k u ->
  String.eqb (GoValue_Type_String x) "time.Time" = false ->
  toString' (Val ro x) = Ok "".
Proof.
  intros R H. rewrite toString_returns.
  - unfold policy. now rewrite R, H.
  - unfold printable. now rewrite R, H.
Qed.

(** C9 (the code at the failing input): an unsigned integer falls through
    the switch on the kind to the test on the type name; when its defined
    type prints as [time.Time] (a type [Time] of another package named
    [time]) the stringifier does not return the empty text: the assertion
    to [time.Time] panics, or [Value.Interface] before it for an unexported
    field, and the tabular renderer panics with it. *)
Theorem toString_unsigned_time_named_panics (k : UintKind) (u : Z) :
  Value_Kind (Val false (VDefined "time.Time" (VUint k u))) = Kind_of_uint k
  /\ toString' (Val false (VDefined "time.Time" (VUint k u)))
     = Panic "interface conversion: interface {} is time.Time, not time.Time (types from different packages)"
  /\ toString' (Val true (VDefined "time.Time" (VUint k u)))
     = Panic "reflect.Value.Interface: cannot return value obtained from unexported field or method"
  /\ (forall w : string,
         writCSV' Meter (Some [VStruct "main.Meter" [(fHits, VDefined "time.Time" (VUint k u))]]) w
         = Panic "interface conversion: interface {} is time.Time, not time.Time (types from different packages)").
Proof.
  destruct k; repeat split; intros; reflexivity.
Qed.

(** ** The tabular renderer *)

Lemma append_assoc (a b c : string) : (a ++ b) ++ c = a ++ b ++ c.
Proof.
  induction a as [|x a IH]; simpl; [reflexivity|now rewrite IH].
Qed.

Lemma append_nil_r (a : string) : a ++ "" = a.
Proof.
  induction a as [|x a IH]; simpl; [reflexivity|now rewrite IH].
Qed.

Lemma headers_from (f : FieldWithTags) (acc : list string) :
  fold_left
    (fun hs fwt =>
       if (String.length (tag fwt) =? 0)%nat
       then (hs ++ [name fwt])%list
       else (hs ++ [tag fwt])%list) f acc
  = (acc ++ map (fun fwt => if String.eqb (tag fwt) "" then name fwt else tag fwt) f)%list.
Proof.
  revert acc. induction f as [|fwt f IH]; intros acc; simpl.
  - now rewrite app_nil_r.
  - rewrite IH. destruct (tag fwt); simpl; now rewrite <- app_assoc.
Qed.

Lemma fields_from (f : FieldWithTags) (acc : list string) :
  fold_left (fun fs fwt => (fs ++ [name fwt])%list) f acc
  = (acc ++ map name f)%list.
Proof.
  revert acc. induction f as [|fwt f IH]; intros acc; simpl.
  - now rewrite app_nil_r.
  - rewrite IH. now rewrite <- app_assoc.
Qed.

Lemma headers_descriptors (fs : list StructField) :
  headers (map descriptor fs) = map header_cell fs.
Proof.
  unfold headers. rewrite headers_from. simpl. now rewrite map_map.
Qed.

Lemma fields_descriptors (fs : list StructField) :
  fields (map descriptor fs) = map Name fs.
Proof.
  unfold fields. rewrite fields_from. simpl. now rewrite map_map.
Qed.

Lemma discover_loop_struct (tname : string) (fs : list StructField) :
  forall (todo i : nat) (acc : FieldWithTags),
    (i + todo = length fs)%nat ->
    discover_loop (TStruct tname fs) i todo acc
    = Ok (acc ++ map descriptor (skipn i fs))%list.
Proof.
  induction todo as [|todo IH]; intros i acc Hlen.
  - simpl. rewrite skipn_all2 by lia. now rewrite app_nil_r.
  - cbn [discover_loop Type_Field].
    destruct (nth_error fs i) as [f|] eqn:E.
    + cbn [bind]. rewrite IH by lia.
      rewrite <- app_assoc. do 2 f_equal.
      clear - E. revert fs E. induction i as [|i IHi]; intros [|g fs] E;
        try discriminate E.
      * injection E as ->. reflexivity.
      * simpl in E. exact (IHi fs E).
    + apply nth_error_None in E. lia.
Qed.

Lemma discover_struct (tname : string) (fs : list StructField) :
  discover (TStruct tname fs) = Ok (map descriptor fs).
Proof.
  unfold discover. cbn [Type_NumField bind].
  now rewrite discover_loop_struct by lia.
Qed.

Lemma content_loop_shape (fs : list string) :
  forall (records : list GoValue) (content content' : list (list string)),
    content_loop' fs records content = Ok content' ->
    exists rows, content' = (content ++ rows)%list
                 /\ length rows = length records.
Proof.
  induction records as [|r records IH]; intros content content' H.
  - simpl in H. injection H as <-. exists []. now rewrite app_nil_r.
  - cbn [content_loop] in H.
    destruct (record_Value r) as [v|msg]; [|discriminate H].
    cbn [bind] in H.
    destruct (row_loop' v fs []) as [row|msg]; [|discriminate H].
    cbn [bind] in H. apply IH in H as (rows & -> & Hlen).
    exists (row :: rows). rewrite <- app_assoc. simpl. now rewrite Hlen.
Qed.

(** Whenever the rows get built, the type is a record type, the first row
    is the header of the type and a row follows for each record. *)
Lemma csv_content_shape (T : GoType) (records : slice GoValue)
      (content : list (list string)) :
  csv_content' T records = Ok content ->
  is_record_type T = true
  /\ exists rows, content = type_header T :: rows
                  /\ length rows = length (elems records).
Proof.
  unfold csv_content, is_record_type, type_header.
  destruct T as [tn fs|[tn fs|e|tn|tn b]|tn|tn b]; simpl;
    try discriminate; try (destruct b as [|k|k|k| |k]; try destruct k; discriminate).
  - rewrite discover_struct. cbn [bind]. rewrite headers_descriptors.
    intros H. apply content_loop_shape in H as (rows & -> & Hlen).
    split; [reflexivity|]. now exists rows.
  - rewrite discover_struct. cbn [bind]. rewrite headers_descriptors.
    intros H. apply content_loop_shape in H as (rows & -> & Hlen).
    split; [reflexivity|]. now exists rows.
Qed.

Lemma csv_write_all (content : list (list string)) (w : string) :
  fold_left (fun out record => out ++ csv_Write record) content w
  = w ++ csv_text content.
Proof.
  revert w. induction content as [|r content IH]; intros w; simpl.
  - now rewrite append_nil_r.
  - rewrite IH. apply append_assoc.
Qed.

Lemma writCSV_shape (T : GoType) (records : slice GoValue) (w out : string)
      (err : option Error) :
  writCSV' T records w = Ok (err, out) ->
  err = None
  /\ is_record_type T = true
  /\ exists rows, out = w ++ csv_Write (type_header T) ++ csv_text rows
                  /\ length rows = length (elems records).
Proof.
  unfold writCSV. destruct (csv_content' T records) as [content|msg] eqn:E;
    [|discriminate].
  cbn [bind]. intros H. injection H as <- <-.
  apply csv_content_shape in E as (HT & rows & -> & Hlen).
  split; [reflexivity|]. split; [exact HT|].
  exists rows. split; [|exact Hlen]. now rewrite csv_write_all.
Qed.

Lemma csv_content_empty (T : GoType) (records : slice GoValue) :
  is_record_type T = true -> elems records = [] ->
  csv_content' T records = Ok [type_header T].
Proof.
  unfold csv_content, is_record_type, type_header. intros HT ->.
  destruct T as [tn fs|[tn fs|e|tn0|tn0 b]|tn0|tn0 b]; simpl in HT; try discriminate HT;
    simpl; rewrite discover_struct; cbn [bind content_loop];
    now rewrite headers_descriptors.
Qed.

Lemma lookup_field_In (field : string) (fvs : list (StructField * GoValue))
      (f : StructField) (x : GoValue) :
  lookup_field field fvs = Some (f, x) -> In (f, x) fvs.
Proof.
  induction fvs as [|[g y] fvs IH]; simpl; [discriminate|].
  destruct (String.eqb (Name g) field).
  - intros [= -> ->]. now left.
  - intros H. right. now apply IH.
Qed.


(** The value the fields of a record of [T] are read from is its struct. *)
Lemma record_Value_of (T : GoType) (fs : list StructField) (r : GoValue) :
  record_fields T = Some fs -> record_of T r ->
  exists tname fvs,
    record_Value r = Ok (Val false (VStruct tname fvs))
    /\ struct_values r = Some fvs
    /\ map fst fvs = fs.
Proof.
  destruct T as [tn fs0|[tn fs0|e|tn0|tn0 b]|tn0|tn0 b]; try discriminate;
    intros [= ->] (fvs & -> & Hfs); exists tn, fvs; now repeat split.
Qed.


Lemma row_loop_returns (tname : string) (fvs : list (StructField * GoValue)) :
  forallb field_ok fvs = true ->
  forall (fs row : list string),
    exists row', row_loop' (Val false (VStruct tname fvs)) fs row = Ok row'.
Proof.
  intros Hok. induction fs as [|field fs IH]; intros row.
  - now exists row.
  - cbn [row_loop Value_FieldByName repr].
    destruct (String.eqb field "").
    + cbn [bind]. rewrite toString_Invalid. cbn [bind]. apply IH.
    + destruct (lookup_field field fvs) as [[f x]|] eqn:E.
      * cbn [bind]. apply lookup_field_In in E.
        pose proof (proj1 (forallb_forall field_ok fvs) Hok _ E) as Hf.
        unfold field_ok in Hf. cbn [fst snd orb] in *.
        rewrite (toString_returns _ _ Hf). cbn [bind]. apply IH.
      * cbn [bind]. rewrite toString_Invalid. cbn [bind]. apply IH.
Qed.

Lemma content_loop_returns (T : GoType) (fs0 : list StructField)
      (fs : list string) (records : list GoValue) :
  record_fields T = Some fs0 ->
  Forall (readable_record T) records ->
  forall content, exists content', content_loop' fs records content = Ok content'.
Proof.
  intros HT. induction records as [|r records IH]; intros H content.
  - now exists content.
  - apply Forall_cons_iff in H as [[Hr (fvs' & Hsv' & Hok)] Hrs].
    cbn [content_loop].
    destruct (record_Value_of T fs0 r HT Hr) as (tn & fvs & E & Hsv & _).
    rewrite Hsv in Hsv'. injection Hsv' as <-.
    rewrite E. cbn [bind].
    destruct (row_loop_returns tn fvs Hok fs []) as [row ->]. cbn [bind].
    now apply IH.
Qed.

(** X11: the tabular renderer returns, without an error, on every list of
    records of a record type [T] (non-nil pointers for a pointer type) on
    whose field values the stringifier returns: it writes the header line
    and one line per record. *)
Lemma writCSV_returns (T : GoType) (records : slice GoValue) (w : string) :
  is_record_type T = true ->
  Forall (readable_record T) (elems records) ->
  exists rows,
    writCSV' T records w
    = Ok (None, w ++ csv_Write (type_header T) ++ csv_text rows)
    /\ length rows = length (elems records).
Proof.
  intros HT Hok.
  assert (exists content, csv_content' T records = Ok content) as [content E].
  { unfold is_record_type in HT.
    destruct (record_fields T) as [fs0|] eqn:F; [|discriminate HT].
    unfold csv_content.
    destruct T as [tn fs|[tn fs|e|tn0|tn0 b]|tn0|tn0 b]; try discriminate F;
      simpl; rewrite discover_struct; cbn [bind];
      now apply (content_loop_returns _ fs0 _ _ F). }
  pose proof (csv_content_shape T records content E) as (_ & rows & -> & Hlen).
  exists rows. split; [|exact Hlen].
  unfold writCSV. rewrite E. cbn [bind]. now rewrite csv_write_all.
Qed.

(** C6: two renderings for the same type carry the same header row,
    whatever the records and however many: the header is a function of the
    type, and a line follows for each record. *)
Theorem header_row_from_type_only (T : GoType) (rs1 rs2 : slice GoValue)
        (w o1 o2 : string)
        (H1 : writCSV' T rs1 w = Ok (None, o1))
        (H2 : writCSV' T rs2 w = Ok (None, o2)) :
  exists rows1 rows2,
    o1 = w ++ csv_Write (type_header T) ++ csv_text rows1
    /\ o2 = w ++ csv_Write (type_header T) ++ csv_text rows2
    /\ length rows1 = length (elems rs1)
    /\ length rows2 = length (elems rs2).
Proof.
  apply writCSV_shape in H1 as (_ & _ & rows1 & E1 & L1).
  apply writCSV_shape in H2 as (_ & _ & rows2 & E2 & L2).
  now exists rows1, rows2.
Qed.

(** C7: with no records (a nil or an empty list) and the format [csv], the
    call succeeds and writes the header row and its line terminator, and
    nothing else. *)
Theorem csv_no_records_header_only (T : GoType) (records : slice GoValue)
        (w : string)
        (HT : is_record_type T = true) (Hnone : elems records = []) :
  Write' (NewOutput w "csv") T records
  = Ok (None, w ++ csv_fields 0 (type_header T) ++ str1 LF).
Proof.
  unfold Write, NewOutput. cbn [format writer].
  change (ToLower unicode_ToLower (TrimSpace "csv")) with "csv".
  cbn [String.eqb Ascii.eqb Bool.eqb]. unfold writCSV.
  rewrite (csv_content_empty T records HT Hnone). cbn [bind fold_left].
  reflexivity.
Qed.

(** C10: when the type is not a struct after one pointer is followed, the
    tabular renderer panics, and [Write] with it; no error is returned.
    For every type but an interface the panic is that of [NumField], which
    names the type. *)
Theorem writCSV_non_struct_panics (T : GoType) (records : slice GoValue)
        (w : string) (HT : is_record_type T = false) :
  exists msg,
    writCSV' T records w = Panic msg
    /\ Write' (NewOutput w "csv") T records = Panic msg
    /\ (forall t, TypeOf_zero T = Some t ->
                  msg = "reflect: NumField of non-struct type "
                        ++ Type_String (deref1 t)).
Proof.
  assert (E : exists msg,
             csv_content' T records = Panic msg
             /\ (forall t, TypeOf_zero T = Some t ->
                           msg = "reflect: NumField of non-struct type "
                                 ++ Type_String (deref1 t))).
  { unfold csv_content, is_record_type in *.
    destruct T as [tn fs|[tn fs|e|tn0|tn0 b]|tn0|tn0 b]; simpl in HT;
      try discriminate HT.
    - eexists. split; [reflexivity|]. intros t [= <-]. reflexivity.
    - eexists. split; [reflexivity|]. intros t [= <-]. reflexivity.
    - eexists. split; [reflexivity|]. intros t [= <-]. reflexivity.
    - eexists. split; [reflexivity|]. intros t Ht. discriminate Ht.
    - destruct b as [|k|k|k| |k]; try destruct k;
        (eexists; split; [reflexivity|]; intros t [= <-]; reflexivity). }
  destruct E as (msg & E & Hmsg). exists msg.
  assert (W : writCSV' T records w = Panic msg)
    by (unfold writCSV; now rewrite E).
  split; [exact W|]. split; [|exact Hmsg].
  unfold Write, NewOutput. cbn [format writer].
  change (ToLower unicode_ToLower (TrimSpace "csv")) with "csv".
  cbn [String.eqb Ascii.eqb Bool.eqb]. exact W.
Qed.

(** ** The format selector *)

Lemma asciiSpace_low (c : ascii) :
  asciiSpace c = true -> (0x80 <=? byte c) = false.
Proof.
  unfold asciiSpace. intros H. apply Z.leb_gt.
  repeat (apply orb_true_iff in H as [H|H]); apply Z.eqb_eq in H; lia.
Qed.

Lemma edge_byte_low (c : ascii) :
  edge_byte c = true -> (0x80 <=? byte c) = false /\ asciiSpace c = false.
Proof.
  unfold edge_byte. intros H. apply andb_true_iff in H as [Hlt Hsp].
  split; [apply Z.leb_gt; now apply Z.ltb_lt in Hlt|].
  now apply negb_true_iff in Hsp.
Qed.

Lemma TrimSpace_lpad (lpad s : string) :
  all_space lpad = true -> TrimSpace (lpad ++ s) = TrimSpace s.
Proof.
  induction lpad as [|c r IH]; intros H; [reflexivity|].
  simpl in H. apply andb_true_iff in H as [Hc Hr].
  cbn [append TrimSpace]. rewrite (asciiSpace_low c Hc), Hc. now apply IH.
Qed.

Lemma list_ascii_app (a b : string) :
  list_ascii_of_string (a ++ b)
  = (list_ascii_of_string a ++ list_ascii_of_string b)%list.
Proof.
  induction a as [|c a IH]; simpl; [reflexivity|now rewrite IH].
Qed.

Lemma all_space_rev_bytes (s : string) :
  all_space s = true -> forallb asciiSpace (rev_bytes s) = true.
Proof.
  intros H. apply forallb_forall. intros c Hin.
  unfold rev_bytes in Hin. apply in_rev in Hin.
  induction s as [|x s IH]; [destruct Hin|].
  simpl in H. apply andb_true_iff in H as [Hx Hs].
  destruct Hin as [<-|Hin]; [exact Hx|now apply IH].
Qed.

Lemma TrimSpace_stop_pad (pad l : list ascii) :
  forallb asciiSpace pad = true -> TrimSpace_stop (pad ++ l) = TrimSpace_stop l.
Proof.
  induction pad as [|c pad IH]; intros H; [reflexivity|].
  simpl in H. apply andb_true_iff in H as [Hc Hp].
  cbn [app TrimSpace_stop]. rewrite (asciiSpace_low c Hc), Hc. now apply IH.
Qed.

(** Trimming takes the ASCII white space off both ends of a text that
    starts and ends with other ASCII bytes. *)
Lemma TrimSpace_padded (lpad rpad core r : string) (c c' : ascii) (l : list ascii) :
  all_space lpad = true -> all_space rpad = true ->
  core = String c r -> edge_byte c = true ->
  rev_bytes core = c' :: l -> edge_byte c' = true ->
  TrimSpace (lpad ++ core ++ rpad) = core.
Proof.
  intros Hl Hr Hcore Hc Hrev Hc'.
  rewrite (TrimSpace_lpad lpad _ Hl).
  destruct (edge_byte_low c Hc) as [Hlow Hsp].
  destruct (edge_byte_low c' Hc') as [Hlow' Hsp'].
  assert (E : TrimSpace (core ++ rpad)
              = of_rev_bytes (TrimSpace_stop (rev_bytes (core ++ rpad)))).
  { rewrite Hcore. cbn [append TrimSpace]. now rewrite Hlow, Hsp. }
  rewrite E. unfold rev_bytes at 1. rewrite list_ascii_app, rev_app_distr.
  fold (rev_bytes rpad). fold (rev_bytes core).
  rewrite (TrimSpace_stop_pad _ _ (all_space_rev_bytes rpad Hr)), Hrev.
  cbn [TrimSpace_stop]. rewrite Hlow', Hsp', <- Hrev.
  unfold of_rev_bytes, rev_bytes.
  now rewrite rev_involutive, string_of_list_ascii_of_string.
Qed.

Lemma lower_ascii_fixed (s : string) : hasUpper s = false -> lower_ascii s = s.
Proof.
  induction s as [|c s IH]; intros H; [reflexivity|].
  simpl in H. apply orb_false_iff in H as [Hc Hs].
  simpl. unfold lower_byte. now rewrite Hc, (IH Hs).
Qed.

Lemma ToLower_ascii (s : string) :
  isASCII s = true -> ToLower unicode_ToLower s = lower_ascii s.
Proof.
  unfold ToLower. intros ->.
  destruct (hasUpper s) eqn:E; [reflexivity|].
  symmetry. now apply lower_ascii_fixed.
Qed.

(** A byte that lowercases to an ASCII byte other than white space is one
    itself. *)
Lemma lower_byte_edge (c : ascii) :
  edge_byte (lower_byte c) = true -> edge_byte c = true.
Proof.
  destruct c as [b0 b1 b2 b3 b4 b5 b6 b7].
  destruct b0, b1, b2, b3, b4, b5, b6, b7; vm_compute; auto.
Qed.

Lemma edge_byte_ascii (c : ascii) : edge_byte c = true -> (byte c <? 0x80) = true.
Proof.
  unfold edge_byte. intros H. now apply andb_true_iff in H as [H _].
Qed.

(** A selector that spells [json] or [csv] in any letter case, between any
    ASCII white space, is normalised to that word. *)
Lemma selector_normal (lpad core rpad : string) :
  all_space lpad = true -> all_space rpad = true ->
  lower_ascii core = "json" \/ lower_ascii core = "csv" ->
  ToLower unicode_ToLower (TrimSpace (lpad ++ core ++ rpad)) = lower_ascii core.
Proof.
  intros Hl Hr [H|H].
  - destruct core as [|c1 [|c2 [|c3 [|c4 [|c5 r]]]]]; try discriminate H.
    injection H as H1 H2 H3 H4.
    assert (E1 : edge_byte c1 = true) by (apply lower_byte_edge; now rewrite H1).
    assert (E2 : edge_byte c2 = true) by (apply lower_byte_edge; now rewrite H2).
    assert (E3 : edge_byte c3 = true) by (apply lower_byte_edge; now rewrite H3).
    assert (E4 : edge_byte c4 = true) by (apply lower_byte_edge; now rewrite H4).
    rewrite (TrimSpace_padded lpad rpad
               (String c1 (String c2 (String c3 (String c4 ""))))
               (String c2 (String c3 (String c4 ""))) c1 c4 [c3; c2; c1]
               Hl Hr eq_refl E1 eq_refl E4).
    apply ToLower_ascii. simpl.
    now rewrite !edge_byte_ascii.
  - destruct core as [|c1 [|c2 [|c3 [|c4 r]]]]; try discriminate H.
    injection H as H1 H2 H3.
    assert (E1 : edge_byte c1 = true) by (apply lower_byte_edge; now rewrite H1).
    assert (E2 : edge_byte c2 = true) by (apply lower_byte_edge; now rewrite H2).
    assert (E3 : edge_byte c3 = true) by (apply lower_byte_edge; now rewrite H3).
    rewrite (TrimSpace_padded lpad rpad
               (String c1 (String c2 (String c3 "")))
               (String c2 (String c3 "")) c1 c3 [c2; c1]
               Hl Hr eq_refl E1 eq_refl E3).
    apply ToLower_ascii. simpl.
    now rewrite !edge_byte_ascii.
Qed.

Lemma selector_blank (pad : string) :
  all_space pad = true ->
  ToLower unicode_ToLower (TrimSpace pad) = "".
Proof.
  intros H. rewrite <- (append_nil_r pad), (TrimSpace_lpad pad "" H).
  reflexivity.
Qed.

(** C2: [Write] dispatches on the selector once trimmed and lowercased:
    [json] renders structured text, [csv] renders tabular text, and the
    empty selector or any other one returns no error and leaves the stream
    as it was.  So a selector that spells [json] or [csv] in any letter
    case between white space selects that renderer, and a blank selector
    writes nothing. *)
Theorem Write_dispatch (o : Output) (T : GoType) (records : slice GoValue) :
  Write' o T records
  = (if String.eqb (ToLower unicode_ToLower (TrimSpace (format o))) "json"
     then writeJson' T records (writer o)
     else if String.eqb (ToLower unicode_ToLower (TrimSpace (format o))) "csv"
          then writCSV' T records (writer o)
          else Ok (None, writer o))
  /\ (forall lpad core rpad : string,
         all_space lpad = true -> all_space rpad = true ->
         (lower_ascii core = "json" ->
          Write' (NewOutput (writer o) (lpad ++ core ++ rpad)) T records
          = writeJson' T records (writer o))
         /\ (lower_ascii core = "csv" ->
             Write' (NewOutput (writer o) (lpad ++ core ++ rpad)) T records
             = writCSV' T records (writer o))
         /\ Write' (NewOutput (writer o) (lpad ++ rpad)) T records
            = Ok (None, writer o)).
Proof.
  split.
  - unfold Write.
    destruct (String.eqb_spec (ToLower unicode_ToLower (TrimSpace (format o))) "")
      as [->|_]; reflexivity.
  - intros lpad core rpad Hl Hr. unfold Write, NewOutput. cbn [format writer].
    split; [|split].
    + intros H. rewrite (selector_normal lpad core rpad Hl Hr (or_introl H)), H.
      reflexivity.
    + intros H. rewrite (selector_normal lpad core rpad Hl Hr (or_intror H)), H.
      reflexivity.
    + assert (Hp : all_space (lpad ++ rpad) = true).
      { clear - Hl Hr. induction lpad as [|c l IH]; [exact Hr|].
        simpl in *. apply andb_true_iff in Hl as [Hc Hl].
        now rewrite Hc, (IH Hl). }
      rewrite (selector_blank _ Hp). reflexivity.
Qed.

(** ** The structured renderer *)

Lemma run_app (st : indent_state) (a b : list jtok) :
  run st (a ++ b) = run (run st a) b.
Proof. apply fold_left_app. Qed.

Lemma step_Lit (pending : bool) (d : Z) (out s : string) :
  indent_step (mkIndent pending d out) (Lit s)
  = mkIndent false (after pending d) (out ++ lead pending d ++ s).
Proof.
  destruct pending; unfold indent_step; simpl; [|reflexivity].
  now rewrite append_assoc.
Qed.

Lemma step_open (pending : bool) (d : Z) (out : string) (c : ascii) :
  c = "["%char \/ c = "{"%char ->
  indent_step (mkIndent pending d out) (Punct c)
  = mkIndent true (after pending d) (out ++ lead pending d ++ str1 c).
Proof.
  intros [-> | ->]; destruct pending; unfold indent_step; simpl;
    try reflexivity; now rewrite append_assoc.
Qed.

Lemma step_comma (d : Z) (out : string) :
  indent_step (mkIndent false d out) (Punct ",")
  = mkIndent false d (out ++ "," ++ newline d).
Proof. reflexivity. Qed.

Lemma step_colon (d : Z) (out : string) :
  indent_step (mkIndent false d out) (Punct ":")
  = mkIndent false d (out ++ ": ").
Proof. reflexivity. Qed.

Lemma step_close_pending (d : Z) (out : string) (c : ascii) :
  c = "]"%char \/ c = "}"%char ->
  indent_step (mkIndent true d out) (Punct c) = mkIndent false d (out ++ str1 c).
Proof. intros [-> | ->]; reflexivity. Qed.

Lemma step_close (d : Z) (out : string) (c : ascii) :
  c = "]"%char \/ c = "}"%char ->
  indent_step (mkIndent false d out) (Punct c)
  = mkIndent false (d - 1) (out ++ newline (d - 1) ++ str1 c).
Proof. intros [-> | ->]; reflexivity. Qed.

Lemma run_cons (st : indent_state) (t : jtok) (b : list jtok) :
  run st (t :: b) = run (indent_step st t) b.
Proof. reflexivity. Qed.

Lemma run_nil (st : indent_state) : run st [] = st.
Proof. reflexivity. Qed.

Lemma run_items_rest (items : list json) :
  Forall indent_spec items ->
  forall (d : Z) (out : string),
    run (mkIndent false (d + 1) out) (compact_items false items)
    = mkIndent false (d + 1) (out ++ pretty_items d false items).
Proof.
  induction 1 as [|x r Hx _ IH]; intros d out.
  - simpl. now rewrite append_nil_r.
  - change (pretty_items d false (x :: r))
      with ("," ++ newline (d + 1) ++ pretty (d + 1) x ++ pretty_items d false r).
    cbn [compact_items app].
    rewrite run_cons, step_comma, run_app, (Hx false (d + 1)).
    cbn [after lead]. rewrite IH. f_equal. now rewrite !append_assoc.
Qed.

Lemma run_members_rest (members : list (string * json)) :
  Forall (fun kx => indent_spec (snd kx)) members ->
  forall (d : Z) (out : string),
    run (mkIndent false (d + 1) out) (compact_members false members)
    = mkIndent false (d + 1) (out ++ pretty_members d false members).
Proof.
  induction 1 as [|[k x] r Hx _ IH]; intros d out.
  - simpl. now rewrite append_nil_r.
  - change (pretty_members d false ((k, x) :: r))
      with ("," ++ newline (d + 1) ++ k ++ ": " ++ pretty (d + 1) x
            ++ pretty_members d false r).
    cbn [compact_members app].
    rewrite run_cons, step_comma, run_cons, step_Lit. cbn [after lead].
    rewrite run_cons, step_colon, run_app.
    simpl in Hx. rewrite (Hx false (d + 1)). cbn [after lead].
    rewrite IH. f_equal. now rewrite !append_assoc.
Qed.

(** [Indent] lays a document out as [pretty] does, at any depth. *)
Lemma indent_run (j : json) : indent_spec j.
Proof.
  induction j as [s|items HF|members HF] using json_nested_ind;
    intros pending d out.
  - simpl. apply step_Lit.
  - change (compact (JArr items))
      with (Punct "[" :: compact_items true items ++ [Punct "]"])%list.
    rewrite run_cons, step_open by now left.
    set (D := after pending d). set (o := out ++ lead pending d ++ str1 "[").
    destruct HF as [|x r Hx HF].
    + cbn [compact_items app].
      rewrite run_cons, run_nil, step_close_pending by now left.
      f_equal. unfold o. now rewrite !append_assoc.
    + change (pretty D (JArr (x :: r)))
        with ("[" ++ ("" ++ newline (D + 1) ++ pretty (D + 1) x
                      ++ pretty_items D false r) ++ newline D ++ "]").
      cbn [compact_items app].
      rewrite !run_app, (Hx true D). cbn [after lead].
      rewrite (run_items_rest r HF), run_cons, run_nil, step_close by now left.
      replace (D + 1 - 1) with D by lia.
      f_equal. unfold o, str1. now rewrite !append_assoc.
  - change (compact (JObj members))
      with (Punct "{" :: compact_members true members ++ [Punct "}"])%list.
    rewrite run_cons, step_open by now right.
    set (D := after pending d). set (o := out ++ lead pending d ++ str1 "{").
    destruct HF as [|[k x] r Hx HF].
    + cbn [compact_members app].
      rewrite run_cons, run_nil, step_close_pending by now right.
      f_equal. unfold o. now rewrite !append_assoc.
    + change (pretty D (JObj ((k, x) :: r)))
        with ("{" ++ ("" ++ newline (D + 1) ++ k ++ ": " ++ pretty (D + 1) x
                      ++ pretty_members D false r) ++ newline D ++ "}").
      cbn [compact_members app].
      rewrite run_cons.
      change (indent_step (mkIndent true D o) (Lit k))
        with (mkIndent false (D + 1) ((o ++ newline (D + 1)) ++ k)).
      rewrite run_cons, step_colon, !run_app.
      simpl in Hx. rewrite (Hx false (D + 1)). cbn [after lead].
      rewrite (run_members_rest r HF), run_cons, run_nil, step_close by now right.
      replace (D + 1 - 1) with D by lia.
      f_equal. unfold o, str1. now rewrite !append_assoc.
Qed.

Lemma Indent_compact (j : json) : Indent (compact j) = pretty 0 j.
Proof.
  unfold Indent. change (fold_left indent_step (compact j) ?st) with (run st (compact j)).
  now rewrite (indent_run j false 0 "").
Qed.

Lemma marshalAs_struct (typed : bool) (tname : string)
      (fvs : list (StructField * GoValue)) :
  typed = false \/ json_override' (VStruct tname fvs) = None ->
  marshalAs' typed (VStruct tname fvs)
  = match marshalMembers' (map fst fvs) fvs with
    | inl e => inl e
    | inr ms => inr (JObj ms)
    end.
Proof.
  intros H. cbn [marshalAs].
  assert (E : (if typed then json_override' (VStruct tname fvs) else None) = None)
    by (destruct H as [-> | H]; [reflexivity|destruct typed; [exact H|reflexivity]]).
  rewrite E. reflexivity.
Qed.

(** A field without a [json] tag goes under its identifier, untagged and
    without options. *)
Lemma untagged_field (f : StructField) :
  String.eqb (Tag_json f) "" = true ->
  json_tagged unicode_validTag f = false
  /\ json_name unicode_validTag f = Name f
  /\ candidate f = Exported f
  /\ tag_opts (Tag_json f) = ""
  /\ json_key' f = plain_key f.
Proof.
  intros H. apply String.eqb_eq in H.
  unfold json_key, plain_key, json_name, json_tagged, candidate.
  rewrite H. cbn. rewrite andb_true_r. now repeat split.
Qed.

Lemma filter_none {A : Type} (p : A -> bool) (l : list A) :
  (forall a, In a l -> p a = false) -> filter p l = [].
Proof.
  induction l as [|a l IH]; intros H; [reflexivity|].
  simpl. rewrite (H a (or_introl eq_refl)). apply IH.
  intros b Hb. apply H. now right.
Qed.

Lemma one_of_its_name (fs : list StructField) (f : StructField) :
  NoDup (map Name fs) -> In f fs -> Exported f = true ->
  length (filter (fun g => Exported g && String.eqb (Name g) (Name f)) fs) = 1%nat.
Proof.
  induction fs as [|g fs IH]; intros Hnd Hin Hex; [destruct Hin|].
  cbn [map] in Hnd. apply NoDup_cons_iff in Hnd as [Hnot Hnd].
  cbn [filter]. destruct Hin as [->|Hin].
  - rewrite Hex, String.eqb_refl. cbn [andb length]. f_equal.
    rewrite filter_none; [reflexivity|].
    intros h Hh. apply andb_false_iff. right. apply String.eqb_neq.
    intros E. apply Hnot. rewrite <- E. now apply in_map.
  - assert (N : String.eqb (Name g) (Name f) = false).
    { apply String.eqb_neq. intros E. apply Hnot. rewrite E. now apply in_map. }
    rewrite N, andb_false_r. now apply IH.
Qed.

(** In a struct type without [json] tags and with distinct field names,
    encoding/json keeps the exported fields. *)
Lemma selected_plain (fs : list StructField) (f : StructField) :
  plain_fields fs = true -> NoDup (map Name fs) -> In f fs ->
  selected' fs f = Exported f.
Proof.
  intros Hp Hnd Hin. unfold plain_fields in Hp.
  pose proof (proj1 (forallb_forall _ fs) Hp) as Hall.
  destruct (untagged_field f (Hall f Hin)) as (Ht & Hn & Hc & _ & _).
  unfold selected. rewrite Hc, Ht.
  destruct (Exported f) eqn:Hex; [|reflexivity]. cbn [andb].
  assert (Hsame : same_name unicode_validTag fs f
                  = filter (fun g => Exported g && String.eqb (Name g) (Name f)) fs).
  { unfold same_name. apply filter_ext_in. intros g Hg.
    destruct (untagged_field g (Hall g Hg)) as (_ & Hgn & Hgc & _ & _).
    now rewrite Hgc, Hgn, Hn. }
  rewrite Hsame, (one_of_its_name fs f Hnd Hin Hex).
  rewrite filter_none; [reflexivity|].
  intros g Hg. apply filter_In in Hg as [Hg _].
  now destruct (untagged_field g (Hall g Hg)) as (Hgt & _).
Qed.

Lemma marshalMembers_plain_keys (all : list StructField) :
  plain_fields all = true -> NoDup (map Name all) ->
  forall (l : list (StructField * GoValue)) (ms : list (string * json)),
    incl (map fst l) all ->
    marshalMembers' all l = inr ms ->
    map fst ms = object_keys (map fst l).
Proof.
  intros Hp Hnd. unfold object_keys.
  induction l as [|[f y] l IH]; intros ms Hincl H.
  - injection H as <-. reflexivity.
  - assert (Hin : In f all) by (apply Hincl; now left).
    assert (Hrest : incl (map fst l) all)
      by (intros g Hg; apply Hincl; now right).
    cbn [marshalMembers] in H. cbn [map fst filter].
    rewrite (selected_plain all f Hp Hnd Hin) in H.
    pose proof (proj1 (forallb_forall _ all) Hp f Hin) as Hf.
    destruct (untagged_field f Hf) as (_ & _ & _ & Ho & Hk).
    rewrite Ho, Hk in H. cbn [String.eqb] in H.
    destruct (Exported f).
    + destruct (marshalValue' y) as [e|j]; [discriminate H|].
      destruct (marshalMembers' all l) as [e|ms'] eqn:M; [discriminate H|].
      injection H as <-. cbn [map fst]. now rewrite (IH ms' Hrest eq_refl).
    + now apply IH.
Qed.

Lemma plain_struct_object (x : GoValue) (fvs : list (StructField * GoValue))
      (j : json) :
  plain_struct' x fvs -> marshalValue' x = inr j ->
  exists ms, j = JObj ms /\ map fst ms = object_keys (map fst fvs).
Proof.
  intros (tn & -> & Htn & Hsp & Hp & Hnd) H.
  unfold marshalValue in H. rewrite marshalAs_struct in H.
  - destruct (marshalMembers' (map fst fvs) fvs) as [e|ms] eqn:M; [discriminate H|].
    injection H as <-. exists ms. split; [reflexivity|].
    exact (marshalMembers_plain_keys _ Hp Hnd fvs ms (incl_refl _) M).
  - right. unfold json_override. cbn [is_std_time]. now rewrite Htn.
Qed.

(** A record of a struct type without [json] tags, embedded fields or a
    marshal method of its own, or a pointer to one, is rendered as an object
    whose keys are the exported field identifiers in declaration order. *)
Lemma plain_record_object (x : GoValue) (fvs : list (StructField * GoValue))
      (j : json) :
  plain_record' x fvs -> marshalValue' x = inr j ->
  exists ms, j = JObj ms /\ map fst ms = object_keys (map fst fvs).
Proof.
  intros [Hs|(el & y & -> & Hsp & Hs)] H.
  - exact (plain_struct_object x fvs j Hs H).
  - apply (plain_struct_object y fvs j Hs).
    unfold marshalValue in *. cbn [marshalAs] in H.
    unfold json_override in H. cbn [is_std_time] in H. now rewrite Hsp in H.
Qed.

Lemma marshalItems_each (l : list GoValue) :
  forall js, marshalItems' l = inr js ->
             Forall2 (fun x j => marshalValue' x = inr j) l js.
Proof.
  induction l as [|x l IH]; intros js H.
  - injection H as <-. constructor.
  - cbn [marshalItems] in H.
    destruct (marshalValue' x) as [e|j] eqn:E; [discriminate H|].
    destruct (marshalItems' l) as [e|js'] eqn:E'; [discriminate H|].
    injection H as <-. constructor; [exact E|now apply IH].
Qed.

Lemma record_type_not_bytes (T : GoType) :
  is_record_type T = true -> Kind_eqb (Type_Kind T) Kind_Uint8 = false.
Proof.
  destruct T as [tn fs|e|tn|tn b]; try reflexivity; discriminate.
Qed.

Lemma writeJson_array (T : GoType) (l : list GoValue) (w : string)
      (js : list json) :
  is_record_type T = true -> marshalItems' l = inr js ->
  writeJson' T (Some l) w = Ok (None, w ++ pretty 0 (JArr js)).
Proof.
  intros HT Hm. unfold writeJson, Marshal.
  rewrite (record_type_not_bytes T HT), Hm. now rewrite Indent_compact.
Qed.

(** C8 (as amended): for a record type, the structured renderer writes a
    non-nil list whose records serialize as a pretty-printed array, two
    spaces per nesting level, with one element per record, the
    serialization of that record; when the record is a struct of a type
    without [json] tags, embedded fields or a marshal method of its own
    ([time.Time] has one), or a pointer to such a struct, its element is an
    object whose keys are the exported field identifiers in declaration
    order.  A nil list is written as the text [null]. *)
Theorem writeJson_pretty_array (T : GoType) (l : list GoValue) (w : string)
        (js : list json)
        (HT : is_record_type T = true)
        (Hm : marshalItems' l = inr js) :
  writeJson' T (Some l) w = Ok (None, w ++ pretty 0 (JArr js))
  /\ length js = length l
  /\ Forall2 (fun x j =>
                marshalValue' x = inr j
                /\ forall fvs, plain_record' x fvs ->
                               exists ms, j = JObj ms
                                          /\ map fst ms = object_keys (map fst fvs))
             l js
  /\ writeJson' T None w = Ok (None, w ++ "null").
Proof.
  split; [|split; [|split]].
  - exact (writeJson_array T l w js HT Hm).
  - apply marshalItems_each in Hm. symmetry. exact (Forall2_length Hm).
  - apply marshalItems_each in Hm.
    induction Hm as [|x j l' js' Hx _ IH]; constructor; [|exact IH].
    split; [exact Hx|].
    intros fvs Hfvs. exact (plain_record_object x fvs j Hfvs Hx).
  - reflexivity.
Qed.

(** C5 (as amended): for a struct type without [json] tags (nor embedded
    fields, nor a marshal method of its own), the display-name override of
    a field shows in the tabular header and nowhere in the structured
    output: a field [Name] with the override [full_name] gives the key
    [Name] in every object the structured renderer writes and the header
    cell [full_name]; a field without an override gives its identifier as
    header cell. *)
Theorem display_name_only_in_header (tname : string)
        (pre post : list StructField) (l : list GoValue) (js : list json)
        (w : string)
        (Hrec : Forall (fun r => exists fvs,
                           plain_struct' r fvs
                           /\ map fst fvs = (pre ++ fName :: post)%list) l)
        (Hm : marshalItems' l = inr js) :
  writeJson' (TStruct tname (pre ++ fName :: post)) (Some l) w
  = Ok (None, w ++ pretty 0 (JArr js))
  /\ length js = length l
  /\ Forall (fun j => exists ms,
                 j = JObj ms
                 /\ map fst ms = object_keys (pre ++ fName :: post)
                 /\ In (String dquote ("Name" ++ str1 dquote)) (map fst ms)) js
  /\ writCSV' (TStruct tname (pre ++ fName :: post)) None w
     = Ok (None, w ++ csv_Write (map header_cell pre
                                 ++ "full_name" :: map header_cell post))
  /\ (forall (other : string) (fs : list StructField) (nm tj : string) (e : bool),
         writCSV' (TStruct other (fs ++ [mkField nm e "" tj])) None w
         = Ok (None, w ++ csv_Write (map header_cell fs ++ [nm]))).
Proof.
  split; [|split; [|split; [|split]]].
  - exact (writeJson_array (TStruct tname (pre ++ fName :: post)) l w js
             eq_refl Hm).
  - pose proof (marshalItems_each l js Hm) as E. symmetry.
    exact (Forall2_length E).
  - pose proof (marshalItems_each l js Hm) as E. clear Hm. revert Hrec.
    induction E as [|x j l' js' Hx _ IH]; intros Hrec; [constructor|].
    apply Forall_cons_iff in Hrec as [(fvs & Hs & Hfs) Hrec].
    constructor; [|now apply IH].
    destruct (plain_struct_object x fvs j Hs Hx) as (ms & -> & K).
    rewrite Hfs in K. exists ms. split; [reflexivity|]. split; [exact K|].
    rewrite K. unfold object_keys.
    change (String dquote ("Name" ++ str1 dquote)) with (plain_key fName).
    apply in_map, filter_In. split; [|reflexivity].
    apply in_or_app. right. now left.
  - unfold writCSV.
    rewrite (csv_content_empty (TStruct tname _) None eq_refl eq_refl).
    cbn [bind fold_left]. unfold type_header. cbn [record_fields].
    now rewrite !map_app.
  - intros other fs nm tj e. unfold writCSV.
    rewrite (csv_content_empty (TStruct other _) None eq_refl eq_refl).
    cbn [bind fold_left]. unfold type_header. cbn [record_fields].
    now rewrite map_app.
Qed.

(** ** Further properties of the renderers *)

(** X1: the header labels and the field names of a descriptor sequence go
    column by column: both have one entry per descriptor, in its order, the
    label being the tag when there is one and the name otherwise. *)
Theorem headers_fields_aligned (f : FieldWithTags) (i : nat) (fwt : FieldWithTag)
        (Hi : nth_error f i = Some fwt) :
  length (headers f) = length (fields f)
  /\ length (fields f) = length f
  /\ nth_error (fields f) i = Some (name fwt)
  /\ nth_error (headers f) i
     = Some (if String.eqb (tag fwt) "" then name fwt else tag fwt).
Proof.
  unfold headers, fields. rewrite headers_from, fields_from. cbn [app].
  rewrite !length_map. repeat split.
  - now apply map_nth_error.
  - exact (map_nth_error
             (fun d => if String.eqb (tag d) "" then name d else tag d) i f Hi).
Qed.

Lemma row_loop_length (v : Value) :
  forall (fs row row' : list string),
    row_loop' v fs row = Ok row' ->
    length row' = (length row + length fs)%nat.
Proof.
  induction fs as [|field fs IH]; intros row row' H.
  - injection H as <-. simpl. lia.
  - cbn [row_loop] in H.
    destruct (Value_FieldByName v field) as [value|msg]; [|discriminate H].
    cbn [bind] in H.
    destruct (toString' value) as [cell|msg]; [|discriminate H].
    cbn [bind] in H. apply IH in H. rewrite H, length_app. simpl. lia.
Qed.

Lemma content_loop_rows (fs : list string) :
  forall (records : list GoValue) (content content' : list (list string)),
    content_loop' fs records content = Ok content' ->
    exists rows, content' = (content ++ rows)%list
                 /\ length rows = length records
                 /\ Forall (fun row => length row = length fs) rows.
Proof.
  induction records as [|r records IH]; intros content content' H.
  - simpl in H. injection H as <-. exists []. now rewrite app_nil_r.
  - cbn [content_loop] in H.
    destruct (record_Value r) as [v|msg]; [|discriminate H].
    cbn [bind] in H.
    destruct (row_loop' v fs []) as [row|msg] eqn:E; [|discriminate H].
    cbn [bind] in H. apply IH in H as (rows & -> & Hlen & Hall).
    exists (row :: rows). rewrite <- app_assoc. simpl.
    split; [reflexivity|]. split; [now rewrite Hlen|].
    constructor; [|exact Hall]. now apply row_loop_length in E.
Qed.

Lemma csv_content_record (T : GoType) (fs : list StructField)
      (records : slice GoValue) :
  record_fields T = Some fs ->
  csv_content' T records
  = content_loop' (map Name fs) (elems records) [map header_cell fs].
Proof.
  unfold csv_content.
  destruct T as [tn fs0|[tn fs0|e| |b]| |b]; simpl; try discriminate;
    intros [= ->]; rewrite discover_struct; cbn [bind];
    now rewrite headers_descriptors, fields_descriptors.
Qed.

(** X2: the table the tabular renderer builds is rectangular: the header
    and every data row have one cell per declared field of the type, and
    there is one data row per record. *)
Theorem csv_rows_rectangular (T : GoType) (fs : list StructField)
        (records : slice GoValue) (content : list (list string))
        (HT : record_fields T = Some fs)
        (H : csv_content' T records = Ok content) :
  Forall (fun row => length row = length fs) content
  /\ length content = S (length (elems records)).
Proof.
  rewrite (csv_content_record T fs records HT) in H.
  apply content_loop_rows in H as (rows & -> & Hlen & Hall).
  rewrite length_map in Hall. split.
  - constructor; [now rewrite length_map|exact Hall].
  - simpl. now rewrite Hlen.
Qed.

Lemma content_loop_nil_pointer (field : string) (fs : list string) (elem : string) :
  forall (records : list GoValue) (content : list (list string)),
    In (VPtr elem None) records ->
    exists msg, content_loop' (field :: fs) records content = Panic msg.
Proof.
  induction records as [|r records IH]; intros content Hin; [destruct Hin|].
  cbn [content_loop].
  destruct Hin as [->|Hin].
  - eexists. reflexivity.
  - destruct (record_Value r) as [v|msg]; [|now exists msg].
    cbn [bind].
    destruct (row_loop' v (field :: fs) []) as [row|msg]; [|now exists msg].
    cbn [bind]. now apply IH.
Qed.

(** X3: a nil pointer among the records of a pointer-to-struct type with
    at least one field makes the tabular renderer panic (the fields are
    read off the zero Value), and [Write] with it. *)
Theorem writCSV_nil_pointer_panics (tname elem : string) (f : StructField)
        (fs : list StructField) (records : slice GoValue) (w : string)
        (Hnil : In (VPtr elem None) (elems records)) :
  exists msg,
    writCSV' (TPtr (TStruct tname (f :: fs))) records w = Panic msg
    /\ Write' (NewOutput w "csv") (TPtr (TStruct tname (f :: fs))) records
       = Panic msg.
Proof.
  destruct (content_loop_nil_pointer (Name f) (map Name fs) elem
              (elems records) [map header_cell (f :: fs)] Hnil) as [msg E].
  exists msg.
  assert (W : writCSV' (TPtr (TStruct tname (f :: fs))) records w = Panic msg).
  { unfold writCSV.
    rewrite (csv_content_record (TPtr (TStruct tname (f :: fs))) (f :: fs)
               records eq_refl).
    change (map Name (f :: fs)) with (Name f :: map Name fs).
    now rewrite E. }
  split; [exact W|].
  unfold Write, NewOutput. cbn [format writer].
  change (ToLower unicode_ToLower (TrimSpace "csv")) with "csv".
  cbn [String.eqb Ascii.eqb Bool.eqb]. exact W.
Qed.

(** X4: the stringifier panics exactly on the values that get past the
    switch on the kind under a type that prints as [time.Time] and that
    either were read out of an unexported field ([Value.Interface] refuses
    them) or are not of the standard type (the assertion fails).  On every
    other value, the zero Value included, it returns. *)
Theorem toString_panics_iff (v : Value) :
  (exists msg, toString' v = Panic msg)
  <-> (exists ro x,
          v = Val ro x
          /\ falls_through x = true
          /\ GoValue_Type_String x = "time.Time"
          /\ (ro = true \/ is_std_time x = false)).
Proof.
  assert (P : forall ro x,
             printable ro x = false
             <-> (falls_through x = true
                  /\ GoValue_Type_String x = "time.Time"
                  /\ (ro = true \/ is_std_time x = false))).
  { intros ro x. unfold printable, falls_through.
    destruct (repr x);
      try (split; [discriminate|intros (H & _); discriminate H]);
      (split;
       [ intros H; apply orb_false_iff in H as [Hn Hr];
         apply negb_false_iff, String.eqb_eq in Hn;
         split; [reflexivity|split; [exact Hn|]];
         destruct ro; [now left|right; exact Hr]
       | intros (_ & Hn & Hr); rewrite Hn; cbn [String.eqb Ascii.eqb Bool.eqb negb orb];
         destruct Hr as [-> | ->]; [reflexivity|apply andb_false_r] ]). }
  split.
  - intros [msg H]. destruct v as [|ro x]; [discriminate H|].
    exists ro, x. split; [reflexivity|]. apply P.
    destruct (printable ro x) eqn:E; [|reflexivity].
    rewrite (toString_returns ro x E) in H. discriminate H.
  - intros (ro & x & -> & H). apply toString_panics. now apply P.
Qed.

Lemma csv_text_app (a b : list (list string)) :
  csv_text (a ++ b) = csv_text a ++ csv_text b.
Proof.
  induction a as [|r a IH]; simpl; [reflexivity|].
  now rewrite IH, append_assoc.
Qed.

Lemma content_loop_app (fs : list string) (l1 l2 : list GoValue) :
  forall content,
    content_loop' fs (l1 ++ l2) content
    = (c1 <- content_loop' fs l1 content ;; content_loop' fs l2 c1).
Proof.
  induction l1 as [|r l1 IH]; intros content; [reflexivity|].
  cbn [app content_loop].
  destruct (record_Value r) as [v|msg]; [|reflexivity]. cbn [bind].
  destruct (row_loop' v fs []) as [row|msg]; [|reflexivity]. cbn [bind].
  apply IH.
Qed.

Lemma content_loop_from (fs : list string) (l : list GoValue) :
  forall content,
    content_loop' fs l content
    = (rows <- content_loop' fs l [] ;; Ok (content ++ rows)%list).
Proof.
  induction l as [|r l IH]; intros content.
  - simpl. now rewrite app_nil_r.
  - cbn [content_loop].
    destruct (record_Value r) as [v|msg]; [|reflexivity]. cbn [bind].
    destruct (row_loop' v fs []) as [row|msg]; [|reflexivity]. cbn [bind].
    rewrite (IH (content ++ [row])%list), (IH ([] ++ [row])%list).
    destruct (content_loop' fs l []) as [rows|msg]; [|reflexivity].
    cbn [bind app]. now rewrite <- app_assoc.
Qed.

(** X6: rendering two lists one after the other is rendering their
    concatenation: the output for [l1 ++ l2] is the output for [l1]
    followed by the data lines of the output for [l2]. *)
Theorem writCSV_concat (T : GoType) (l1 l2 : list GoValue) (w o1 o2 : string)
        (H1 : writCSV' T (Some l1) w = Ok (None, o1))
        (H2 : writCSV' T (Some l2) "" = Ok (None, o2)) :
  exists rows2,
    o2 = csv_Write (type_header T) ++ csv_text rows2
    /\ length rows2 = length l2
    /\ writCSV' T (Some (l1 ++ l2)%list) w = Ok (None, o1 ++ csv_text rows2).
Proof.
  unfold writCSV in *.
  destruct (csv_content' T (Some l1)) as [c1|m1] eqn:E1; [|discriminate H1].
  destruct (csv_content' T (Some l2)) as [c2|m2] eqn:E2; [|discriminate H2].
  cbn [bind] in H1, H2. rewrite csv_write_all in H1, H2.
  injection H1 as <-. injection H2 as <-.
  pose proof (csv_content_shape T (Some l1) c1 E1) as (HT & _).
  unfold is_record_type in HT.
  destruct (record_fields T) as [fs|] eqn:F; [|discriminate HT].
  rewrite (csv_content_record T fs (Some l1) F) in E1.
  rewrite (csv_content_record T fs (Some l2) F) in E2. cbn [elems] in E1, E2.
  rewrite content_loop_from in E2.
  destruct (content_loop' (map Name fs) l2 []) as [rows2|m] eqn:R2;
    [|discriminate E2].
  cbn [bind] in E2. injection E2 as <-.
  exists rows2. split; [|split].
  - unfold type_header. rewrite F. reflexivity.
  - apply content_loop_rows in R2 as (rows & -> & Hlen & _). exact Hlen.
  - rewrite (csv_content_record T fs _ F). cbn [elems].
    rewrite content_loop_app, E1. cbn [bind].
    rewrite content_loop_from, R2. cbn [bind].
    now rewrite csv_write_all, csv_text_app, append_assoc.
Qed.

Lemma unserializable_fails (y : GoValue) :
  unserializable y = true ->
  forall typed, typed = false \/ json_override' y = None ->
                exists e, marshalAs' typed y = inl e.
Proof.
  unfold unserializable.
  induction y as [b|k i|k u|k f|s|tn fs|el tg|k|tn z IH]; cbn [repr];
    try discriminate; intros H typed Ht;
    assert (E : (if typed then json_override' _ else None) = None)
      by (destruct Ht as [-> | Ht]; [reflexivity|destruct typed; [exact Ht|reflexivity]]);
    cbn [marshalAs]; rewrite E.
  - apply negb_true_iff in H. rewrite H. eexists. reflexivity.
  - eexists. reflexivity.
  - apply (IH H false). now left.
Qed.

Lemma marshalMembers_fails (all : list StructField)
      (l : list (StructField * GoValue)) (f : StructField) (y : GoValue)
      (e : Error) :
  plain_fields all = true -> NoDup (map Name all) -> incl (map fst l) all ->
  In (f, y) l -> Exported f = true -> marshalValue' y = inl e ->
  exists e', marshalMembers' all l = inl e'.
Proof.
  intros Hp Hnd Hincl Hin Hex Hy. induction l as [|[g z] l IH]; [destruct Hin|].
  assert (Hg : In g all) by (apply Hincl; now left).
  assert (Hrest : incl (map fst l) all) by (intros h Hh; apply Hincl; now right).
  cbn [marshalMembers].
  rewrite (selected_plain all g Hp Hnd Hg).
  destruct (untagged_field g (proj1 (forallb_forall _ all) Hp g Hg))
    as (_ & _ & _ & Ho & _).
  rewrite Ho. cbn [String.eqb].
  destruct Hin as [[= -> ->]|Hin].
  - rewrite Hex, Hy. now exists e.
  - destruct (IH Hrest Hin) as [e' E'].
    change ((fix members (l0 : list (StructField * GoValue)) := _) l)
      with (marshalMembers' all l).
    rewrite E'.
    destruct (Exported g); [|now exists e'].
    destruct (marshalValue' z) as [e0|j]; [now exists e0|now exists e'].
Qed.

Lemma marshalItems_fails (l : list GoValue) (x : GoValue) (e : Error) :
  In x l -> marshalValue' x = inl e -> exists e', marshalItems' l = inl e'.
Proof.
  intros Hin Hx. induction l as [|y l IH]; [destruct Hin|].
  cbn [marshalItems]. destruct Hin as [->|Hin].
  - rewrite Hx. now exists e.
  - destruct (IH Hin) as [e' E']. rewrite E'.
    destruct (marshalValue' y) as [e0|j]; [now exists e0|now exists e'].
Qed.

(** X8: among the records of a struct type without [json] tags, embedded
    fields or a marshal method of its own, one value that encoding/json
    refuses by its kind (a NaN, an infinity, a channel, a function, a complex
    number, of a type without a marshal method) in an exported field of one
    record makes the structured renderer return an error and write nothing,
    for the whole list. *)
Theorem writeJson_rejects_unserializable (T : GoType) (l : list GoValue)
        (w : string) (r : GoValue) (fvs : list (StructField * GoValue))
        (f : StructField) (y : GoValue)
        (HT : is_record_type T = true)
        (Hin : In r l)
        (Hr : plain_struct' r fvs)
        (Hfield : In (f, y) fvs) (Hex : Exported f = true)
        (Hy : json_override' y = None)
        (Hbad : unserializable y = true) :
  exists err, writeJson' T (Some l) w = Ok (Some err, w).
Proof.
  destruct (unserializable_fails y Hbad true (or_intror Hy)) as [e He].
  destruct Hr as (tn & -> & Htn & Hsp & Hp & Hnd).
  destruct (marshalMembers_fails (map fst fvs) fvs f y e Hp Hnd (incl_refl _)
              Hfield Hex He) as [e1 H1].
  assert (Hx : marshalValue' (VStruct tn fvs) = inl e1).
  { unfold marshalValue. rewrite marshalAs_struct.
    - now rewrite H1.
    - right. unfold json_override. cbn [is_std_time]. now rewrite Htn. }
  destruct (marshalItems_fails l _ e1 Hin Hx) as [e2 H2].
  exists e2. unfold writeJson, Marshal.
  now rewrite (record_type_not_bytes T HT), H2.
Qed.

Lemma lookup_field_NoDup (fvs : list (StructField * GoValue)) (f : StructField)
      (x : GoValue) :
  NoDup (map (fun fx => Name (fst fx)) fvs) -> In (f, x) fvs ->
  lookup_field (Name f) fvs = Some (f, x).
Proof.
  induction fvs as [|[g y] fvs IH]; intros Hnd Hin; [destruct Hin|].
  cbn [map fst] in Hnd. apply NoDup_cons_iff in Hnd as [Hnot Hnd].
  cbn [lookup_field]. destruct Hin as [[= -> ->]|Hin].
  - now rewrite String.eqb_refl.
  - destruct (String.eqb_spec (Name g) (Name f)) as [E|_]; [|now apply IH].
    exfalso. apply Hnot. rewrite E.
    exact (in_map (fun fx => Name (fst fx)) fvs (f, x) Hin).
Qed.

Lemma toString_field (f : StructField) (x : GoValue) :
  field_ok (f, x) = true ->
  toString' (Val (false || negb (Exported f)) x) = Ok (policy' x).
Proof.
  unfold field_ok. cbn [fst snd orb]. apply toString_returns.
Qed.

Lemma row_loop_typed (tname : string) (fvs : list (StructField * GoValue)) :
  NoDup (map (fun fx => Name (fst fx)) fvs) ->
  Forall (fun fx => Name (fst fx) <> "") fvs ->
  forallb field_ok fvs = true ->
  forall (sub : list (StructField * GoValue)) (row : list string),
    incl sub fvs ->
    row_loop' (Val false (VStruct tname fvs))
              (map (fun fx => Name (fst fx)) sub) row
    = Ok (row ++ map (fun fx => policy' (snd fx)) sub)%list.
Proof.
  intros Hnd Hne Hok. induction sub as [|[f x] sub IH]; intros row Hincl.
  - simpl. now rewrite app_nil_r.
  - assert (Hin : In (f, x) fvs) by (apply Hincl; now left).
    cbn [map fst snd row_loop Value_FieldByName repr].
    pose proof (proj1 (Forall_forall _ fvs) Hne _ Hin) as Hname.
    cbn [fst] in Hname. apply String.eqb_neq in Hname. rewrite Hname.
    rewrite (lookup_field_NoDup fvs f x Hnd Hin). cbn [bind].
    rewrite (toString_field f x
               (proj1 (forallb_forall field_ok fvs) Hok _ Hin)).
    cbn [bind]. rewrite IH by (intros z Hz; apply Hincl; now right).
    now rewrite <- app_assoc.
Qed.

Lemma content_loop_typed (T : GoType) (fs : list StructField) :
  record_fields T = Some fs ->
  NoDup (map Name fs) -> Forall (fun f => Name f <> "") fs ->
  forall (records : list GoValue) (content : list (list string)),
    Forall (readable_record T) records ->
    content_loop' (map Name fs) records content
    = Ok (content ++ map record_cells' records)%list.
Proof.
  intros HT Hnd Hne. induction records as [|r records IH]; intros content Hall.
  - simpl. now rewrite app_nil_r.
  - apply Forall_cons_iff in Hall as [[Hr (fvs' & Hsv' & Hok)] Hall].
    cbn [content_loop map].
    destruct (record_Value_of T fs r HT Hr) as (tn & fvs & E & Hsv & Hfs).
    rewrite Hsv in Hsv'. injection Hsv' as <-.
    rewrite E. cbn [bind].
    assert (Hnames : map Name fs = map (fun fx => Name (fst fx)) fvs)
      by (rewrite <- Hfs; now rewrite map_map).
    rewrite Hnames.
    rewrite (row_loop_typed tn fvs) with (sub := fvs) (row := []).
    + cbn [bind app]. rewrite <- Hnames, (IH _ Hall).
      unfold record_cells at 2. rewrite Hsv. now rewrite <- app_assoc.
    + now rewrite <- Hnames.
    + rewrite <- Hfs in Hne.
      exact (proj1 (Forall_map fst (fun f => Name f <> "") fvs) Hne).
    + exact Hok.
    + apply incl_refl.
Qed.

(** X9: for records of the record type [T] (non-nil pointers for a pointer
    type), with distinct non-empty field names and field values on which
    the stringifier returns, the tabular renderer writes the header line
    and then, for each record in order, the line of its field values
    through the policy table, in declaration order; it returns no error. *)
Theorem writCSV_rows (T : GoType) (fs : list StructField)
        (records : slice GoValue) (w : string)
        (HT : record_fields T = Some fs)
        (Hnd : NoDup (map Name fs))
        (Hne : Forall (fun f => Name f <> "") fs)
        (Hrec : Forall (readable_record T) (elems records)) :
  writCSV' T records w
  = Ok (None, w ++ csv_Write (map header_cell fs)
                ++ csv_text (map record_cells' (elems records))).
Proof.
  unfold writCSV. rewrite (csv_content_record T fs records HT).
  rewrite (content_loop_typed T fs HT Hnd Hne _ _ Hrec). cbn [bind].
  now rewrite csv_write_all.
Qed.

(** X10: the cell of a signed integer loses nothing: read back as a
    decimal numeral it is the integer, so two integers with the same cell
    are equal. *)
Theorem toString_int_round_trip (ro : bool) (k : IntKind) (i : Z) :
  exists s,
    toString' (Val ro (VInt k i)) = Ok s
    /\ option_map Z.of_int (NilZero.int_of_string s) = Some i
    /\ (forall (ro' : bool) (k' : IntKind) (j : Z),
           toString' (Val ro' (VInt k' j)) = Ok s -> j = i).
Proof.
  assert (R : forall z, option_map Z.of_int (NilZero.int_of_string (FormatInt z))
                        = Some z).
  { intros z. unfold FormatInt. rewrite NilZero.isi.
    - simpl. now rewrite DecimalZ.of_to.
    - destruct z; simpl; try discriminate.
      intros [= E]. exact (Unsigned.to_uint_nonnil _ E).
    - destruct z; simpl; try discriminate.
      intros [= E]. exact (Unsigned.to_uint_nonnil _ E). }
  assert (S : forall r' q z, toString' (Val r' (VInt q z)) = Ok (FormatInt z))
    by (intros r' q z; destruct q; reflexivity).
  exists (FormatInt i). split; [apply S|]. split; [apply R|].
  intros ro' k' j H. rewrite S in H. injection H as H.
  pose proof (R j) as Rj. rewrite H, R in Rj. now injection Rj.
Qed.

End Properties.

(** ** The theorems at the sample data *)



Lemma toString_numeric_patterns_witness :
  is_finite_float (S754_finite false 1 (-3)) = true
  /\ ((exists s, toString sample_time_String
                   (Val false (VFloat F64 (S754_finite false 1 (-3)))) = Ok s
                 /\ matches_fixed2 s = true
                 /\ exists q, s = fixed2 false q /\ nearest_hundredth 1 (-3) q)
      /\ (forall (ik : IntKind) (i : Z),
             exists s, toString sample_time_String (Val false (VInt ik i)) = Ok s
                       /\ matches_int s = true)).
Proof.
  split; [reflexivity|].
  exact (toString_numeric_patterns sample_time_String false F64
           (S754_finite false 1 (-3)) eq_refl).
Defined.

(** C3, as the specification words it, fails: a NaN is printed as [NaN]. *)
Lemma nan_not_fixed_point :
  toString sample_time_String (Val false (VFloat F64 S754_nan)) = Ok "NaN"
  /\ ~ (exists s, toString sample_time_String (Val false (VFloat F64 S754_nan))
                  = Ok s
                  /\ matches_fixed2 s = true).
Proof.
  split; [reflexivity|]. intros (s & E & M).
  injection E as <-. discriminate M.
Qed.

Lemma Write_dispatch_witness :
  all_space " " = true /\ all_space (String LF "") = true
  /\ lower_ascii "JsOn" = "json" /\ lower_ascii "CSV" = "csv"
  /\ Write sample_time_String sample_ToLower sample_json_string
           sample_json_float sample_MarshalJSON sample_json_bytes
           sample_json_special sample_tag_options sample_validTag
           (NewOutput "" (" " ++ "JsOn" ++ String LF "")) Person (Some [ann])
     = writeJson sample_json_string sample_json_float sample_MarshalJSON
            sample_json_bytes sample_json_special sample_tag_options
            sample_validTag Person (Some [ann]) ""
  /\ Write sample_time_String sample_ToLower sample_json_string
           sample_json_float sample_MarshalJSON sample_json_bytes
           sample_json_special sample_tag_options sample_validTag
           (NewOutput "" (" " ++ "CSV" ++ String LF "")) Person (Some [ann])
     = writCSV sample_time_String Person (Some [ann]) ""
  /\ Write sample_time_String sample_ToLower sample_json_string
           sample_json_float sample_MarshalJSON sample_json_bytes
           sample_json_special sample_tag_options sample_validTag
           (NewOutput "" (" " ++ String LF "")) Person (Some [ann])
     = Ok (None, "").
Proof.
  split; [reflexivity|]. split; [reflexivity|].
  split; [reflexivity|]. split; [reflexivity|].
  pose proof (proj2 (Write_dispatch sample_time_String sample_ToLower
           sample_json_string sample_json_float sample_MarshalJSON
           sample_json_bytes sample_json_special sample_tag_options
           sample_validTag (NewOutput "" "yaml") Person
                       (Some [ann]))) as H.
  split; [|split].
  - exact (proj1 (H " " "JsOn" (String LF "") eq_refl eq_refl) eq_refl).
  - exact (proj1 (proj2 (H " " "CSV" (String LF "") eq_refl eq_refl)) eq_refl).
  - exact (proj2 (proj2 (H " " "" (String LF "") eq_refl eq_refl))).
Defined.

Lemma display_name_only_in_header_witness :
  Forall (fun r => exists fvs,
              plain_struct sample_json_special r fvs
              /\ map fst fvs = ([] ++ fName :: [fAge])%list) [ann; bo]
  /\ marshalItems sample_json_string sample_json_float sample_MarshalJSON
       sample_json_special sample_tag_options sample_validTag [ann; bo]
     = inr [JObj [(plain_key fName, JLit (sample_json_string "Ann"));
                  (plain_key fAge, JLit "30")];
            JObj [(plain_key fName, JLit (sample_json_string "Bo"));
                  (plain_key fAge, JLit "4")]]
  /\ writeJson sample_json_string sample_json_float sample_MarshalJSON
            sample_json_bytes sample_json_special sample_tag_options
            sample_validTag (TStruct "main.Person" ([] ++ fName :: [fAge])) (Some [ann; bo]) "id"
     = Ok (None, "id" ++ pretty 0
             (JArr [JObj [(plain_key fName, JLit (sample_json_string "Ann"));
                          (plain_key fAge, JLit "30")];
                    JObj [(plain_key fName, JLit (sample_json_string "Bo"));
                          (plain_key fAge, JLit "4")]]))
  /\ writCSV sample_time_String
       (TStruct "main.Person" ([] ++ fName :: [fAge])) None "id"
     = Ok (None, "id" ++ csv_Write ["full_name"; "Age"]).
Proof.
  assert (Hrec : Forall (fun r => exists fvs,
                            plain_struct sample_json_special r fvs
                            /\ map fst fvs = ([] ++ fName :: [fAge])%list)
                        [ann; bo]).
  { repeat constructor;
      (eexists; split; [eexists; split; [reflexivity|]|reflexivity];
       split; [reflexivity|]; split; [reflexivity|]; split; [reflexivity|];
       repeat constructor; simpl; intuition discriminate). }
  split; [exact Hrec|]. split; [reflexivity|].
  pose proof (display_name_only_in_header sample_time_String sample_json_string sample_json_float
       sample_MarshalJSON sample_json_bytes sample_json_special
       sample_tag_options sample_validTag "main.Person" [] [fAge] [ann; bo]
       [JObj [(plain_key fName, JLit (sample_json_string "Ann"));
              (plain_key fAge, JLit "30")];
        JObj [(plain_key fName, JLit (sample_json_string "Bo"));
              (plain_key fAge, JLit "4")]]
       "id" Hrec eq_refl) as (H1 & _ & _ & H4 & _).
  split; [exact H1|exact H4].
Defined.

(** C5, as the specification words it, fails: a field [Name] with the
    override [full_name] that also carries the tag [json:"n"] goes under the
    key [n] in structured mode; no key [Name] is written. *)
Lemma json_tag_renames_key :
  Name fNameAsN = "Name" /\ Tag_csv fNameAsN = "full_name"
  /\ writeJson sample_json_string sample_json_float sample_MarshalJSON
            sample_json_bytes sample_json_special sample_tag_options
            sample_validTag Tagged (Some [tagged_ann]) ""
     = Ok (None, pretty 0
             (JArr [JObj [(String dquote ("n" ++ str1 dquote),
                           JLit (sample_json_string "Ann"));
                          (String dquote ("Age" ++ str1 dquote), JLit "30")]]))
  /\ ~ In (String dquote ("Name" ++ str1 dquote))
          [String dquote ("n" ++ str1 dquote);
           String dquote ("Age" ++ str1 dquote)]
  /\ writCSV sample_time_String Tagged (Some [tagged_ann]) ""
     = Ok (None, csv_Write ["full_name"; "Age"] ++ csv_Write ["Ann"; "30"]).
Proof.
  split; [reflexivity|]. split; [reflexivity|]. split; [reflexivity|].
  split; [|reflexivity].
  simpl. intros [H|[H|[]]]; discriminate H.
Qed.

Lemma header_row_from_type_only_witness :
  writCSV sample_time_String Person (Some [ann; bo]) ""
  = Ok (None, "full_name,Age" ++ str1 LF ++ "Ann,30" ++ str1 LF
              ++ "Bo,4" ++ str1 LF)
  /\ writCSV sample_time_String Person None ""
     = Ok (None, "full_name,Age" ++ str1 LF)
  /\ exists rows1 rows2,
      "full_name,Age" ++ str1 LF ++ "Ann,30" ++ str1 LF ++ "Bo,4" ++ str1 LF
      = "" ++ csv_Write (type_header Person) ++ csv_text rows1
      /\ "full_name,Age" ++ str1 LF
         = "" ++ csv_Write (type_header Person) ++ csv_text rows2
      /\ length rows1 = length (elems (Some [ann; bo]))
      /\ length rows2 = length (elems (@None (list GoValue))).
Proof.
  split; [reflexivity|]. split; [reflexivity|].
  exact (header_row_from_type_only sample_time_String Person
           (Some [ann; bo]) None "" _ _ eq_refl eq_refl).
Defined.

Lemma csv_no_records_header_only_witness :
  is_record_type (TPtr Person) = true
  /\ elems (Some (@nil GoValue)) = []
  /\ Write sample_time_String sample_ToLower sample_json_string
           sample_json_float sample_MarshalJSON sample_json_bytes
           sample_json_special sample_tag_options sample_validTag
           (NewOutput "" "csv") (TPtr Person) (Some [])
     = Ok (None, "" ++ csv_fields 0 (type_header (TPtr Person)) ++ str1 LF).
Proof.
  split; [reflexivity|]. split; [reflexivity|].
  exact (csv_no_records_header_only sample_time_String sample_ToLower
           sample_json_string sample_json_float sample_MarshalJSON
           sample_json_bytes sample_json_special sample_tag_options
           sample_validTag (TPtr Person) (Some []) "" eq_refl eq_refl).
Defined.

Lemma writCSV_non_struct_panics_witness :
  is_record_type (TBasic "int" (BInt I_)) = false
  /\ exists msg,
      writCSV sample_time_String (TBasic "int" (BInt I_)) (Some [VInt I_ 7]) ""
      = Panic msg
      /\ Write sample_time_String sample_ToLower sample_json_string
           sample_json_float sample_MarshalJSON sample_json_bytes
           sample_json_special sample_tag_options sample_validTag
               (NewOutput "" "csv") (TBasic "int" (BInt I_)) (Some [VInt I_ 7])
         = Panic msg
      /\ (forall t, TypeOf_zero (TBasic "int" (BInt I_)) = Some t ->
                    msg = "reflect: NumField of non-struct type "
                          ++ Type_String (deref1 t)).
Proof.
  split; [reflexivity|].
  exact (writCSV_non_struct_panics sample_time_String sample_ToLower
           sample_json_string sample_json_float sample_MarshalJSON
           sample_json_bytes sample_json_special sample_tag_options
           sample_validTag (TBasic "int" (BInt I_)) (Some [VInt I_ 7]) "" eq_refl).
Defined.

Lemma writeJson_pretty_array_witness :
  is_record_type Person = true
  /\ marshalItems sample_json_string sample_json_float sample_MarshalJSON
       sample_json_special sample_tag_options sample_validTag [ann; bo]
     = inr [JObj [(plain_key fName, JLit (sample_json_string "Ann"));
                  (plain_key fAge, JLit "30")];
            JObj [(plain_key fName, JLit (sample_json_string "Bo"));
                  (plain_key fAge, JLit "4")]]
  /\ writeJson sample_json_string sample_json_float sample_MarshalJSON
            sample_json_bytes sample_json_special sample_tag_options
            sample_validTag Person (Some [ann; bo]) ""
     = Ok (None,
           "[" ++ newline 1 ++ "{"
           ++ newline 2 ++ plain_key fName ++ ": " ++ sample_json_string "Ann" ++ ","
           ++ newline 2 ++ plain_key fAge ++ ": 30"
           ++ newline 1 ++ "},"
           ++ newline 1 ++ "{"
           ++ newline 2 ++ plain_key fName ++ ": " ++ sample_json_string "Bo" ++ ","
           ++ newline 2 ++ plain_key fAge ++ ": 4"
           ++ newline 1 ++ "}"
           ++ newline 0 ++ "]").
Proof.
  split; [reflexivity|]. split; [reflexivity|].
  exact (proj1
    (writeJson_pretty_array sample_json_string sample_json_float
       sample_MarshalJSON sample_json_bytes sample_json_special
       sample_tag_options sample_validTag Person [ann; bo] ""
       [JObj [(plain_key fName, JLit (sample_json_string "Ann"));
              (plain_key fAge, JLit "30")];
        JObj [(plain_key fName, JLit (sample_json_string "Bo"));
              (plain_key fAge, JLit "4")]]
       eq_refl eq_refl)).
Defined.

(** C8, as the specification words it, fails: the nil list is written as
    [null], which is not an array. *)
Lemma nil_list_not_an_array :
  writeJson sample_json_string sample_json_float sample_MarshalJSON
            sample_json_bytes sample_json_special sample_tag_options
            sample_validTag Person None "" = Ok (None, "null")
  /\ forall js : list json,
      writeJson sample_json_string sample_json_float sample_MarshalJSON
            sample_json_bytes sample_json_special sample_tag_options
            sample_validTag Person None ""
      <> Ok (None, pretty 0 (JArr js)).
Proof.
  split; [reflexivity|].
  intros [|x r]; discriminate.
Qed.

Lemma headers_fields_aligned_witness :
  nth_error [mkFieldWithTag "Name" "full_name"; mkFieldWithTag "Age" ""] 1
  = Some (mkFieldWithTag "Age" "")
  /\ (length (headers [mkFieldWithTag "Name" "full_name"; mkFieldWithTag "Age" ""])
      = length (fields [mkFieldWithTag "Name" "full_name"; mkFieldWithTag "Age" ""])
      /\ length (fields [mkFieldWithTag "Name" "full_name"; mkFieldWithTag "Age" ""])
         = 2%nat
      /\ nth_error (fields [mkFieldWithTag "Name" "full_name"; mkFieldWithTag "Age" ""]) 1
         = Some "Age"
      /\ nth_error (headers [mkFieldWithTag "Name" "full_name"; mkFieldWithTag "Age" ""]) 1
         = Some "Age").
Proof.
  split; [reflexivity|].
  exact (headers_fields_aligned
           [mkFieldWithTag "Name" "full_name"; mkFieldWithTag "Age" ""] 1
           (mkFieldWithTag "Age" "") eq_refl).
Defined.

Lemma csv_rows_rectangular_witness :
  record_fields Person = Some [fName; fAge]
  /\ csv_content sample_time_String Person (Some [ann; bo])
     = Ok [["full_name"; "Age"]; ["Ann"; "30"]; ["Bo"; "4"]]
  /\ Forall (fun row => length row = 2%nat)
            [["full_name"; "Age"]; ["Ann"; "30"]; ["Bo"; "4"]]
  /\ length [["full_name"; "Age"]; ["Ann"; "30"]; ["Bo"; "4"]] = 3%nat.
Proof.
  split; [reflexivity|]. split; [reflexivity|].
  exact (csv_rows_rectangular sample_time_String Person [fName; fAge]
           (Some [ann; bo]) _ eq_refl eq_refl).
Defined.

Lemma writCSV_nil_pointer_panics_witness :
  In (VPtr "main.Person" None)
     (elems (Some [VPtr "main.Person" (Some ann); VPtr "main.Person" None]))
  /\ exists msg,
      writCSV sample_time_String (TPtr (TStruct "main.Person" [fName; fAge]))
              (Some [VPtr "main.Person" (Some ann); VPtr "main.Person" None]) ""
      = Panic msg
      /\ Write sample_time_String sample_ToLower sample_json_string
           sample_json_float sample_MarshalJSON sample_json_bytes
           sample_json_special sample_tag_options sample_validTag
               (NewOutput "" "csv") (TPtr (TStruct "main.Person" [fName; fAge]))
               (Some [VPtr "main.Person" (Some ann); VPtr "main.Person" None])
         = Panic msg.
Proof.
  assert (H : In (VPtr "main.Person" None)
                 (elems (Some [VPtr "main.Person" (Some ann);
                               VPtr "main.Person" None])))
    by (simpl; auto).
  split; [exact H|].
  exact (writCSV_nil_pointer_panics sample_time_String sample_ToLower
           sample_json_string sample_json_float sample_MarshalJSON
           sample_json_bytes sample_json_special sample_tag_options
           sample_validTag "main.Person" "main.Person" fName [fAge]
           (Some [VPtr "main.Person" (Some ann); VPtr "main.Person" None]) "" H).
Defined.

Lemma writCSV_concat_witness :
  writCSV sample_time_String Person (Some [ann]) "#"
  = Ok (None, "#" ++ csv_Write ["full_name"; "Age"] ++ csv_Write ["Ann"; "30"])
  /\ writCSV sample_time_String Person (Some [bo]) ""
     = Ok (None, csv_Write ["full_name"; "Age"] ++ csv_Write ["Bo"; "4"])
  /\ exists rows2,
      csv_Write ["full_name"; "Age"] ++ csv_Write ["Bo"; "4"]
      = csv_Write (type_header Person) ++ csv_text rows2
      /\ length rows2 = length [bo]
      /\ writCSV sample_time_String Person (Some ([ann] ++ [bo])%list) "#"
         = Ok (None, ("#" ++ csv_Write ["full_name"; "Age"]
                          ++ csv_Write ["Ann"; "30"]) ++ csv_text rows2).
Proof.
  split; [reflexivity|]. split; [reflexivity|].
  exact (writCSV_concat sample_time_String Person [ann] [bo] "#" _ _
           eq_refl eq_refl).
Defined.

Lemma writCSV_rows_witness :
  record_fields (TPtr Person) = Some [fName; fAge]
  /\ Forall (readable_record (TPtr Person))
            [VPtr "main.Person" (Some ann); VPtr "main.Person" (Some bo)]
  /\ writCSV sample_time_String (TPtr Person)
             (Some [VPtr "main.Person" (Some ann); VPtr "main.Person" (Some bo)]) ""
     = Ok (None, "" ++ csv_Write ["full_name"; "Age"]
                 ++ csv_text [["Ann"; "30"]; ["Bo"; "4"]]).
Proof.
  assert (Hrec : Forall (readable_record (TPtr Person))
                        [VPtr "main.Person" (Some ann);
                         VPtr "main.Person" (Some bo)]).
  { repeat constructor;
      try (eexists; split; reflexivity). }
  split; [reflexivity|]. split; [exact Hrec|].
  refine (writCSV_rows sample_time_String (TPtr Person) [fName; fAge]
            (Some [VPtr "main.Person" (Some ann); VPtr "main.Person" (Some bo)])
            "" eq_refl _ _ Hrec).
  - repeat constructor; simpl; intuition discriminate.
  - repeat constructor; discriminate.
Defined.

Lemma writCSV_returns_witness :
  is_record_type Person = true
  /\ Forall (readable_record Person) (elems (Some [ann; bo]))
  /\ exists rows,
      writCSV sample_time_String Person (Some [ann; bo]) ""
      = Ok (None, "" ++ csv_Write (type_header Person) ++ csv_text rows)
      /\ length rows = length (elems (Some [ann; bo])).
Proof.
  assert (Hrec : Forall (readable_record Person) (elems (Some [ann; bo]))).
  { repeat constructor; try (eexists; split; reflexivity). }
  split; [reflexivity|]. split; [exact Hrec|].
  exact (writCSV_returns sample_time_String Person (Some [ann; bo]) ""
           eq_refl Hrec).
Defined.

Lemma writeJson_rejects_unserializable_witness :
  is_record_type Scored = true
  /\ In scored_cy [scored_ann; scored_cy]
  /\ plain_struct sample_json_special scored_cy
       [(fName, VString "Cy"); (fScore, VFloat F64 S754_nan)]
  /\ unserializable (VFloat F64 S754_nan) = true
  /\ exists err,
      writeJson sample_json_string sample_json_float sample_MarshalJSON
                sample_json_bytes sample_json_special sample_tag_options
                sample_validTag Scored (Some [scored_ann; scored_cy]) "kept"
      = Ok (Some err, "kept").
Proof.
  assert (Hin : In scored_cy [scored_ann; scored_cy]) by (simpl; auto).
  assert (Hr : plain_struct sample_json_special scored_cy
                 [(fName, VString "Cy"); (fScore, VFloat F64 S754_nan)]).
  { eexists. split; [reflexivity|]. split; [reflexivity|].
    split; [reflexivity|]. split; [reflexivity|].
    repeat constructor; simpl; intuition discriminate. }
  assert (Hf : In (fScore, VFloat F64 S754_nan)
                  [(fName, VString "Cy"); (fScore, VFloat F64 S754_nan)])
    by (simpl; auto).
  split; [reflexivity|]. split; [exact Hin|]. split; [exact Hr|].
  split; [reflexivity|].
  exact (writeJson_rejects_unserializable sample_json_string sample_json_float
           sample_MarshalJSON sample_json_bytes sample_json_special
           sample_tag_options sample_validTag Scored [scored_ann; scored_cy]
           "kept" scored_cy
           [(fName, VString "Cy"); (fScore, VFloat F64 S754_nan)]
           fScore (VFloat F64 S754_nan) eq_refl Hin Hr Hf eq_refl eq_refl
           eq_refl).
Defined.
